(** * KARL AI ASSISTANCE: the WhatsApp reply orchestrator

    A shallow embedding of the two scripts of the repository: the
    [WhatsAppBot] class with its Express routes, and the earlier
    single-function script [index.js].

    Strings are the runtime's: sequences of UTF-16 code units.  The
    collaborators the scripts only call (the completion client, the
    session transport, the clock, the file system) answer through an
    explicit environment record, and every call a handler makes to them is
    recorded, in order, in the trace the handler returns.  A handler is a
    function from the store (the bot object and the files) to an outcome,
    the store it leaves and its trace; an [await] is a call, and a handler
    runs as one step: what other handlers may do while one is suspended at
    an [await] is not modelled.  The reconnect counter is read and written
    by the [connection.update] listener only, and before its first
    [await], so for the counter the steps below are the runtime's.

    The first part holds the embedding, the second the properties, the
    third runs of the model on concrete inputs. *)

From Stdlib Require Import ZArith NArith List Ascii String Bool Lia.
From stdpp Require Import base option list gmap strings.

Local Open Scope Z_scope.

(** ** Strings *)

Module JS.

(** A string value: its UTF-16 code units. *)
Abbreviation jsstring := (list N).

(** An ASCII literal of the source as code units. *)
Definition js (s : string) : jsstring :=
  map N_of_ascii (list_ascii_of_string s).

(** [s.startsWith(pat)] *)
Fixpoint startsWith (s pat : jsstring) : bool :=
  match pat, s with
  | [], _ => true
  | _ :: _, [] => false
  | p :: pat', c :: s' => N.eqb c p && startsWith s' pat'
  end.

(** [s.includes(pat)]: [pat] occurs at some position of [s]. *)
Fixpoint includes (s pat : jsstring) : bool :=
  startsWith s pat ||
  match s with
  | [] => false
  | _ :: s' => includes s' pat
  end.

(** [s.endsWith(pat)] *)
Definition endsWith (s pat : jsstring) : bool :=
  startsWith (rev s) (rev pat).

(** WhiteSpace and LineTerminator code points of ECMAScript, the ones
    [String.prototype.trim] removes. *)
Definition isWhiteSpace (c : N) : bool :=
  ((9 <=? c) && (c <=? 13) || (c =? 32) || (c =? 160) || (c =? 5760)
   || (8192 <=? c) && (c <=? 8202) || (c =? 8232) || (c =? 8233)
   || (c =? 8239) || (c =? 8287) || (c =? 12288) || (c =? 65279))%N.

Fixpoint trimStart (s : jsstring) : jsstring :=
  match s with
  | c :: s' => if isWhiteSpace c then trimStart s' else s
  | [] => []
  end.

Definition trimEnd (s : jsstring) : jsstring := rev (trimStart (rev s)).

(** [s.trim()] *)
Definition trim (s : jsstring) : jsstring := trimEnd (trimStart s).

(** The character class [0-9]. *)
Definition isDigit (c : N) : bool := ((48 <=? c) && (c <=? 57))%N.

(** [s.replace(/[^0-9]/g, '')] *)
Definition stripNonDigits (s : jsstring) : jsstring := filter (fun c => isDigit c = true) s.

(** [s.replace(pat, '')] with a string pattern: only the first occurrence
    is removed. *)
Fixpoint removeFirst (pat s : jsstring) : jsstring :=
  if startsWith s pat then drop (length pat) s
  else match s with
       | [] => []
       | c :: s' => c :: removeFirst pat s'
       end.

(** [s.substring(0, n) + (s.length > n ? '...' : '')], the preview the
    handlers log. *)
Definition preview (n : nat) (s : jsstring) : jsstring :=
  take n s ++ (if (n <? length s)%nat then js "..." else []).

(** Truthiness of an optional string: [undefined], [null] and [''] are
    falsy. *)
Definition truthy (v : option jsstring) : bool :=
  match v with
  | Some (_ :: _) => true
  | _ => false
  end.

(** [a || b] on optional strings. *)
Definition or_else (a b : option jsstring) : option jsstring :=
  if truthy a then a else b.

(** [a || 'literal'] *)
Definition or_default (a : option jsstring) (d : jsstring) : jsstring :=
  match a with
  | Some (c :: s) => c :: s
  | _ => d
  end.

(** [toLowerCase] on ASCII text: [A]-[Z] go to [a]-[z], every other code
    unit stays.  The runtime's function agrees with it on every string of
    ASCII code units; on other text the runtime follows the Unicode case
    tables, which the development leaves as a parameter. *)
Definition lowerUnit (c : N) : N :=
  if ((65 <=? c) && (c <=? 90))%N then (c + 32)%N else c.

Definition asciiLowerCase (s : jsstring) : jsstring := map lowerUnit s.

Definition isASCII (c : N) : bool := (c <? 128)%N.

(** Occurrence of [pat] in [s], as a proposition. *)
Definition occurs (pat s : jsstring) : Prop :=
  exists a b, s = a ++ pat ++ b.

End JS.

Import JS.

Arguments js s : simpl never.

(** ** The platform *)

(** What the scripts read from their platform and do not define:
    the runtime's [String.prototype.toLowerCase], the session library's
    [DisconnectReason.loggedOut] code, and the [PHONE_NUMBER] variable of
    the process environment.  (The import line of the class script names
    [DisconnectReason] twice; the model reads the name as the library's
    enumeration, as [index.js] imports it.) *)
Record Platform := {
  toLowerCase : jsstring -> jsstring;
  loggedOut : Z;
  env_PHONE_NUMBER : option jsstring
}.

(** Thrown values.  [TypeError p] is what the runtime raises when
    property [p] is read or called on [undefined] or [null]; [Thrown m] is
    any other thrown or rejected value, with its [message] property. *)
Inductive exn :=
| TypeError (property : string)
| Thrown (message : option jsstring).

(** [error.message]; for a [TypeError], V8's wording. *)
Definition exn_message (e : exn) : option jsstring :=
  match e with
  | TypeError p =>
      Some (js "Cannot read properties of undefined (reading '" ++ js p ++ js "')")
  | Thrown m => m
  end.

(** ** Data of the session transport *)

Definition SocketId : Type := N.

Record MessageKey := {
  remoteJid : option jsstring;
  fromMe : bool;
  participant : option jsstring
}.

Record ExtendedTextMessage := { text : option jsstring }.
Record MediaMessage := { caption : option jsstring }.

Record MessageContent := {
  conversation : option jsstring;
  extendedTextMessage : option ExtendedTextMessage;
  imageMessage : option MediaMessage;
  videoMessage : option MediaMessage
}.

Record WAMessage := {
  key : MessageKey;
  message : option MessageContent;
  pushName : option jsstring
}.

(** The object handed to [sock.sendMessage]: [{ text }] with an optional
    [mentions] array. *)
Record OutMessage := {
  out_text : jsstring;
  out_mentions : option (list (option jsstring))
}.

Inductive Connection := ConnClose | ConnOpen | ConnConnecting.

(** A [connection.update] event: [statusCode] is
    [lastDisconnect?.error?.output?.statusCode]. *)
Record ConnectionUpdate := {
  connection : option Connection;
  statusCode : option Z;
  qr : option jsstring
}.

(** ** Data of the completion client *)

(** The request of [openai.chat.completions.create]; the constant
    [temperature: 0.7] is not represented. *)
Record CompletionRequest := {
  req_model : jsstring;
  req_system : jsstring;
  req_user : jsstring;
  req_max_tokens : Z
}.

(** [Completed c]: the call resolved and [c] is
    [completion.choices[0]?.message?.content].  [Failed e]: it rejected. *)
Inductive CompletionOutcome :=
| Completed (content : option jsstring)
| Failed (e : exn).

(** [sock.sendMessage] resolves with a message (whose [key.id] may be
    missing) or with [undefined], or rejects. *)
Inductive SendOutcome :=
| Sent (result : option (option jsstring))
| SendFailed (e : exn).

Inductive PairingOutcome :=
| PairingCode (code : jsstring)
| PairingFailed (e : exn).

Inductive SocketOutcome :=
| SocketMade (s : SocketId)
| SocketFailed (e : exn).

(** ** Persisted state *)

(** The object written to [pairing_log.json]. *)
Record PairingRecord := {
  pr_timestamp : jsstring;
  pr_phone : jsstring;
  pr_code : jsstring;
  pr_status : jsstring
}.

Definition pairing_log : string := "auth_info_baileys/pairing_log.json".

(** ** The environment and the trace *)

Record Env := {
  completion : CompletionRequest -> CompletionOutcome;
  sendMessage : SocketId -> jsstring -> OutMessage -> SendOutcome;
  pairingCode : SocketId -> jsstring -> PairingOutcome;
  registered : SocketId -> bool;
  makeSocket : SocketOutcome;
  writeFileSync : string -> option exn;
  now : jsstring
}.

(** Console output, by the statement that prints it; consecutive
    [console.log] calls of one block are one line here. *)
Inductive LogLine :=
| LogAIError (m : option jsstring)
| LogInitializing
| LogSocketInitialized
| LogInitFailed (e : exn)
| LogQR
| LogClosed (code : option Z)
| LogLoggedOut
| LogReconnecting (attempt max : Z)
| LogMaxReconnect
| LogConnected
| LogNotPaired
| LogIncoming (group : bool) (name from preview : jsstring)
| LogReplied (name preview : jsstring)
| LogHandlingError (e : exn)
| LogSocketNotReady
| LogPairingCode (phone code : jsstring)
| LogPairingError (m : option jsstring)
| LogAlreadyPaired
| LogTryManual
| LogAutoPairing
| LogStartFailed (e : exn)
| LogScriptClosed (error : option Z) (shouldReconnect : bool)
| LogScriptConnected
| LogScriptReceived (from text : jsstring)
| LogScriptReplied (from reply : jsstring)
| LogScriptPairing (phone code : jsstring)
| LogScriptPairingError (e : exn).

Inductive Timer := RetryInitialize | AutoPair.

Inductive Event :=
| Console (l : LogLine)
| CompletionCall (r : CompletionRequest)
| TransportSend (s : SocketId) (to : jsstring) (m : OutMessage)
| PairingRequest (s : SocketId) (phone : jsstring)
| SocketCreated (s : SocketId)
| SetTimeout (t : Timer) (ms : Z)
| StartBot.

(** The sends, completion calls, pairing requests and timers of a trace,
    in order. *)
Definition sends (t : list Event) : list (SocketId * jsstring * OutMessage) :=
  omap (fun e => match e with TransportSend s to m => Some (s, to, m) | _ => None end) t.

Definition completions (t : list Event) : list CompletionRequest :=
  omap (fun e => match e with CompletionCall r => Some r | _ => None end) t.

Definition pairings (t : list Event) : list (SocketId * jsstring) :=
  omap (fun e => match e with PairingRequest s p => Some (s, p) | _ => None end) t.

Definition timers (t : list Event) : list (Timer * Z) :=
  omap (fun e => match e with SetTimeout k ms => Some (k, ms) | _ => None end) t.

(** ** The bot object and the store *)

Record Bot := {
  sock : option SocketId;
  isConnected : bool;
  reconnectAttempts : Z;
  maxReconnectAttempts : Z
}.

(** [new WhatsAppBot()] *)
Definition constructor : Bot :=
  {| sock := None; isConnected := false;
     reconnectAttempts := 0; maxReconnectAttempts := 5 |}.

Record Store := {
  bot : Bot;
  files : gmap string PairingRecord
}.

Definition initial_store : Store := {| bot := constructor; files := ∅ |}.

(** ** Handlers as computations *)

Inductive outcome (A : Type) :=
| Returned (a : A)
| Raised (e : exn).
Arguments Returned {A} a.
Arguments Raised {A} e.

(** A handler run: from a store, an outcome, the store it leaves (also
    when it throws: nothing is rolled back) and the trace of its calls. *)
Definition Eff (A : Type) : Type := Store -> outcome A * Store * list Event.

Definition ret {A} (a : A) : Eff A := fun st => (Returned a, st, []).

Definition throw {A} (e : exn) : Eff A := fun st => (Raised e, st, []).

Definition bind {A B} (m : Eff A) (k : A -> Eff B) : Eff B :=
  fun st =>
    match m st with
    | (Returned a, st1, t1) =>
        match k a st1 with (r, st2, t2) => (r, st2, t1 ++ t2) end
    | (Raised e, st1, t1) => (Raised e, st1, t1)
    end.

(** [try { m } catch (error) { h error }] *)
Definition try_catch {A} (m : Eff A) (h : exn -> Eff A) : Eff A :=
  fun st =>
    match m st with
    | (Returned a, st1, t1) => (Returned a, st1, t1)
    | (Raised e, st1, t1) =>
        match h e st1 with (r, st2, t2) => (r, st2, t1 ++ t2) end
    end.

Definition emit (e : Event) : Eff unit := fun st => (Returned tt, st, [e]).

Definition log (l : LogLine) : Eff unit := emit (Console l).

Definition get_bot : Eff Bot := fun st => (Returned (bot st), st, []).

Definition set_bot (f : Bot -> Bot) : Eff unit :=
  fun st => (Returned tt, {| bot := f (bot st); files := files st |}, []).

Definition get_files : Eff (gmap string PairingRecord) :=
  fun st => (Returned (files st), st, []).

(** Reading property [p] of a value that may be [undefined]. *)
Definition defined {A} (v : option A) (p : string) : Eff A :=
  match v with
  | Some a => ret a
  | None => throw (TypeError p)
  end.

Declare Scope eff_scope.
Delimit Scope eff_scope with eff.
Notation "'let*' x := m 'in' k" := (bind m (fun x => k))
  (at level 10, x pattern, m at level 100, k at level 200) : eff_scope.
Notation "m >> k" := (bind m (fun _ => k))
  (at level 62, right associativity) : eff_scope.
Local Open Scope eff_scope.

Definition trace_of {A} (r : outcome A * Store * list Event) : list Event := r.2.
Definition store_of {A} (r : outcome A * Store * list Event) : Store := r.1.2.
Definition result_of {A} (r : outcome A * Store * list Event) : outcome A := r.1.1.

(** ** The [WhatsAppBot] script *)

Definition BOT_NAME : jsstring := js "KARL AI ASSISTANCE".

Definition default_phone : jsstring := js "+263777965084".

(** The fallback replies of [getAIResponse]; each starts with a pictograph
    (U+23F3, U+1F511, U+1F916), written here in code units. *)
Definition reply_empty : jsstring := js "Sorry, I could not process that request.".
Definition reply_busy : jsstring :=
  9203%N :: js " I'm busy right now. Please try again in a moment!".
Definition reply_checkup : jsstring :=
  55357%N :: 56593%N :: js " My AI brain needs a checkup. Try again soon!".
Definition reply_issues : jsstring :=
  55358%N :: 56598%N :: js " AI service is having issues. I'll be back!".

(** The line break and indentation inside the prompt template. *)
Definition template_break : jsstring := 10%N :: js "    ".

Definition systemPrompt (context : jsstring) : jsstring :=
  js "You are " ++ BOT_NAME ++ js ", a helpful WhatsApp AI assistant. " ++ template_break
  ++ js "Keep responses concise (under 150 characters), friendly, and relevant. " ++ template_break
  ++ js "Context: " ++ context.

Definition completion_request (message context : jsstring) : CompletionRequest :=
  {| req_model := js "deepseek-chat"; req_system := systemPrompt context;
     req_user := message; req_max_tokens := 150 |}.

(** The text of an inbound message: the [||] chain over the plain body,
    the extended-text body and the two captions, ending in ['']. *)
Definition extractText (m : MessageContent) : jsstring :=
  or_default
    (or_else (conversation m)
       (or_else (extendedTextMessage m ≫= text)
          (or_else (imageMessage m ≫= caption) (videoMessage m ≫= caption))))
    [].

(** The [triggers] array of [handleMessage]. *)
Definition triggers (lowerText : jsstring) : list bool :=
  [ includes lowerText (js "karl");
    includes lowerText (js "@karl");
    startsWith lowerText (js "karl ");
    startsWith lowerText (js "karl,");
    includes lowerText (js "assistant");
    includes lowerText (js "ai ") ].

(** [triggers.some(Boolean)] *)
Definition triggered (lowerText : jsstring) : bool :=
  existsb (fun b => b) (triggers lowerText).

(** The condition under which [handleMessage] attaches [mentions]. *)
Definition mentionsBot (lowerText : jsstring) : bool :=
  includes lowerText (js "@karl") || includes lowerText (js "karl").

Definition group_context (pushName : jsstring) : jsstring :=
  js "Group chat with " ++ pushName ++ js ". Keep it appropriate for groups.".

Definition direct_context (pushName : jsstring) : jsstring :=
  js "Direct message from " ++ pushName ++ js ".".

Definition replyMessage (isGroup : bool) (lowerText aiReply : jsstring)
    (k : MessageKey) : OutMessage :=
  {| out_text := BOT_NAME ++ js ": " ++ aiReply;
     out_mentions :=
       if isGroup && mentionsBot lowerText then Some [participant k] else None |}.

Section WhatsAppBot.

Variable P : Platform.
Variable env : Env.

(** [process.env.PHONE_NUMBER || '+263777965084'] *)
Definition PHONE_NUMBER : jsstring := or_default (env_PHONE_NUMBER P) default_phone.

(** [text.toLowerCase().trim()] *)
Definition lowerText (text : jsstring) : jsstring := trim (toLowerCase P text).

(** The awaited calls to the collaborators. *)
Definition call_completion (r : CompletionRequest) : Eff (option jsstring) :=
  emit (CompletionCall r) >>
  match completion env r with
  | Completed c => ret c
  | Failed e => throw e
  end.

Definition call_send (s : SocketId) (to : jsstring) (m : OutMessage)
  : Eff (option (option jsstring)) :=
  emit (TransportSend s to m) >>
  match sendMessage env s to m with
  | Sent r => ret r
  | SendFailed e => throw e
  end.

Definition call_pairing (s : SocketId) (phone : jsstring) : Eff jsstring :=
  emit (PairingRequest s phone) >>
  match pairingCode env s phone with
  | PairingCode c => ret c
  | PairingFailed e => throw e
  end.

Definition write_file (path : string) (r : PairingRecord) : Eff unit :=
  match writeFileSync env path with
  | Some e => throw e
  | None =>
      fun st => (Returned tt, {| bot := bot st; files := <[path := r]> (files st) |}, [])
  end.

(** [getAIResponse(message, context)] *)
Definition getAIResponse (message context : jsstring) : Eff jsstring :=
  try_catch
    (let* content := call_completion (completion_request message context) in
     let response := trim <$> content in
     ret (or_default response reply_empty))
    (fun error =>
       log (LogAIError (exn_message error)) >>
       let* m := defined (exn_message error) "includes" in
       if includes m (js "rate limit") then ret reply_busy
       else if includes m (js "invalid") then ret reply_checkup
       else ret reply_issues).

(** [handleMessage(msg)] *)
Definition handleMessage (msg : WAMessage) : Eff unit :=
  try_catch
    (match message msg with
     | None => ret tt
     | Some content =>
       if fromMe (key msg) then ret tt else
       let* from := defined (remoteJid (key msg)) "endsWith" in
       let isGroup := endsWith from (js "@g.us") in
       let pushName := or_default (pushName msg) (js "User") in
       let text := extractText content in
       if negb (truthy (Some text)) || (length text <? 2)%nat then ret tt else
       let lowerText := lowerText text in
       if negb (triggered lowerText) then ret tt else
       log (LogIncoming isGroup pushName from (preview 50 text)) >>
       let context := if isGroup then group_context pushName
                      else direct_context pushName in
       let* aiReply := getAIResponse text context in
       let reply := replyMessage isGroup lowerText aiReply (key msg) in
       let* b := get_bot in
       let* s := defined (sock b) "sendMessage" in
       call_send s from reply >>
       log (LogReplied pushName (preview 50 aiReply))
     end)
    (fun error => log (LogHandlingError error)).

(** The [messages.upsert] listener. *)
Definition on_messages_upsert (notify : bool) (messages : list WAMessage) : Eff unit :=
  match notify, messages with
  | true, msg :: _ => handleMessage msg
  | _, _ => ret tt
  end.

(** [requestPairingCode()] *)
Definition requestPairingCode : Eff unit :=
  try_catch
    (let* b := get_bot in
     match sock b with
     | None => log LogSocketNotReady
     | Some s =>
       let cleanPhone := stripNonDigits PHONE_NUMBER in
       let* code := call_pairing s cleanPhone in
       log (LogPairingCode PHONE_NUMBER code) >>
       write_file pairing_log
         {| pr_timestamp := now env; pr_phone := PHONE_NUMBER;
            pr_code := code; pr_status := js "generated" |}
     end)
    (fun error =>
       log (LogPairingError (exn_message error)) >>
       let* m := defined (exn_message error) "includes" in
       if includes m (js "already paired") || includes m (js "authenticated")
       then log LogAlreadyPaired
       else log LogTryManual).

(** The [connection.update] listener registered by [initialize]. *)
Definition on_connection_update (update : ConnectionUpdate) : Eff unit :=
  (if truthy (qr update) then log LogQR else ret tt) >>
  match connection update with
  | Some ConnClose =>
      log (LogClosed (statusCode update)) >>
      set_bot (fun b => {| sock := sock b; isConnected := false;
                           reconnectAttempts := reconnectAttempts b;
                           maxReconnectAttempts := maxReconnectAttempts b |}) >>
      let* b := get_bot in
      if bool_decide (statusCode update = Some (loggedOut P)) then
        log LogLoggedOut >> requestPairingCode
      else if reconnectAttempts b <? maxReconnectAttempts b then
        set_bot (fun b => {| sock := sock b; isConnected := isConnected b;
                             reconnectAttempts := reconnectAttempts b + 1;
                             maxReconnectAttempts := maxReconnectAttempts b |}) >>
        let* b := get_bot in
        log (LogReconnecting (reconnectAttempts b) (maxReconnectAttempts b)) >>
        emit (SetTimeout RetryInitialize (5000 * reconnectAttempts b))
      else log LogMaxReconnect
  | Some ConnOpen =>
      set_bot (fun b => {| sock := sock b; isConnected := true;
                           reconnectAttempts := 0;
                           maxReconnectAttempts := maxReconnectAttempts b |}) >>
      log LogConnected >>
      let* b := get_bot in
      let* s := defined (sock b) "authState" in
      if negb (registered env s) then log LogNotPaired >> requestPairingCode
      else ret tt
  | _ => ret tt
  end.

(** [initialize()]: the session store, the version lookup and
    [makeWASocket] are one call of the environment. *)
Definition initialize : Eff SocketId :=
  try_catch
    (log LogInitializing >>
     let* s := match makeSocket env with
               | SocketMade s => emit (SocketCreated s) >> ret s
               | SocketFailed e => throw e
               end in
     set_bot (fun b => {| sock := Some s; isConnected := isConnected b;
                          reconnectAttempts := reconnectAttempts b;
                          maxReconnectAttempts := maxReconnectAttempts b |}) >>
     log LogSocketInitialized >>
     ret s)
    (fun error => log (LogInitFailed error) >> throw error).

(** [sendDirectMessage(to, message)] *)
Definition sendDirectMessage (to message : jsstring) : Eff (option (option jsstring)) :=
  let* b := get_bot in
  match isConnected b, sock b with
  | true, Some s => call_send s to {| out_text := message; out_mentions := None |}
  | _, _ => throw (Thrown (Some (js "Bot not connected")))
  end.

(** [getStatus()]; [uptime], a floating-point reading of the process
    clock, is not represented. *)
Record BotStatus := {
  st_name : jsstring;
  st_connected : bool;
  st_phone : jsstring;
  st_reconnectAttempts : Z;
  st_timestamp : jsstring
}.

Definition getStatus (b : Bot) : BotStatus :=
  {| st_name := BOT_NAME; st_connected := isConnected b;
     st_phone := PHONE_NUMBER; st_reconnectAttempts := reconnectAttempts b;
     st_timestamp := now env |}.

(** *** The Express routes *)

Inductive ResponseBody :=
| BodyError (error : jsstring)
| BodyFailure (error : option jsstring)
| BodyPairFailure (error : option jsstring)
| BodySent (to : jsstring) (id : option jsstring)
| BodyStarted (connected : bool)
| BodyPaired (phone code : jsstring)
| BodyStatus (s : BotStatus).

Record Response := { status : Z; body : ResponseBody }.

(** [res.json(b)] and [res.status(c).json(b)] *)
Definition json (b : ResponseBody) : Response := {| status := 200; body := b |}.
Definition status_json (c : Z) (b : ResponseBody) : Response := {| status := c; body := b |}.

(** [POST /send/:number]; [message] is [req.body.message], a string when
    the field is there. *)
Definition post_send (number : jsstring) (message : option jsstring) : Eff Response :=
  try_catch
    (match message with
     | Some (c :: m) =>
       let message := c :: m in
       let cleanNumber := stripNonDigits number ++ js "@s.whatsapp.net" in
       let* result := sendDirectMessage cleanNumber message in
       let* id := defined result "key" in
       ret (json (BodySent cleanNumber id))
     | _ => ret (status_json 400 (BodyError (js "Message required")))
     end)
    (fun error => ret (status_json 500 (BodyFailure (exn_message error)))).

(** [POST /pair] *)
Definition post_pair : Eff Response :=
  try_catch
    (initialize >>
     requestPairingCode >>
     let* fs := get_files in
     let code := pr_code <$> fs !! pairing_log in
     ret (json (BodyPaired PHONE_NUMBER (or_default code (js "Check logs for code")))))
    (fun error => ret (status_json 500 (BodyPairFailure (exn_message error)))).

(** [POST /start] *)
Definition post_start : Eff Response :=
  try_catch
    (initialize >>
     let* b := get_bot in
     ret (json (BodyStarted (isConnected b))))
    (fun error => ret (status_json 500 (BodyFailure (exn_message error)))).

(** [GET /status] *)
Definition get_status : Eff Response :=
  let* b := get_bot in ret (json (BodyStatus (getStatus b))).

(** *** Start-up and timers *)

(** The callback of the ten-second timer of [startApplication]. *)
Definition auto_pair : Eff unit :=
  let* b := get_bot in
  if negb (isConnected b) then log LogAutoPairing >> requestPairingCode
  else ret tt.

(** [startApplication()], the bot part. *)
Definition startApplication : Eff unit :=
  try_catch
    (initialize >> emit (SetTimeout AutoPair 10000))
    (fun error => log (LogStartFailed error)).

End WhatsAppBot.

(** *** The process as a machine *)

(** What can run against the bot object: start-up, the two timers, the
    socket's listeners and the routes. *)
Inductive Op :=
| OpStartApplication
| OpRetryTimer
| OpAutoPairTimer
| OpConnectionUpdate (u : ConnectionUpdate)
| OpMessagesUpsert (notify : bool) (ms : list WAMessage)
| OpGetStatus
| OpPostPair
| OpPostStart
| OpPostSend (number : jsstring) (message : option jsstring).

Definition forget {A} (m : Eff A) : Store -> Store * list Event :=
  fun st => (store_of (m st), trace_of (m st)).

Definition run_op (P : Platform) (env : Env) (op : Op) : Store -> Store * list Event :=
  match op with
  | OpStartApplication => forget (startApplication env)
  | OpRetryTimer => forget (initialize env)
  | OpAutoPairTimer => forget (auto_pair P env)
  | OpConnectionUpdate u => forget (on_connection_update P env u)
  | OpMessagesUpsert n ms => forget (on_messages_upsert P env n ms)
  | OpGetStatus => forget (get_status P env)
  | OpPostPair => forget (post_pair P env)
  | OpPostStart => forget (post_start env)
  | OpPostSend n m => forget (post_send env n m)
  end.

(** The stores of a run: the process starts from a fresh bot object, with
    whatever an earlier run left on disk, and each step runs one
    operation against the answers of the environment at that time. *)
Inductive reachable (P : Platform) : Store -> Prop :=
| reach_start fs : reachable P {| bot := constructor; files := fs |}
| reach_step st env op :
    reachable P st -> reachable P (run_op P env op st).1.

(** ** The script [index.js] *)

Module IndexJs.
Section Script.

Variable P : Platform.
Variable env : Env.

Definition system_message : jsstring :=
  js "You are KARL AI ASSISTANCE, a helpful WhatsApp bot. Respond concisely and friendly.".

Definition PHONE_NUMBER : jsstring := or_default (env_PHONE_NUMBER P) default_phone.

(** [getAIResponse(message)] *)
Definition getAIResponse (message : jsstring) : Eff jsstring :=
  try_catch
    (let* content := call_completion env
                       {| req_model := js "deepseek-chat"; req_system := system_message;
                          req_user := message; req_max_tokens := 150 |} in
     ret (or_default content (js "Sorry, I could not process that.")))
    (fun error =>
       log (LogAIError (exn_message error)) >>
       ret (js "Sorry, AI is having issues. Try again!")).

(** The condition of the [if] in the [messages.upsert] listener. *)
Definition trigger (text : jsstring) : bool :=
  includes (toLowerCase P text) (js "karl") || includes text (js "@karl").

Definition extractText (m : MessageContent) : jsstring :=
  or_default (or_else (conversation m) (extendedTextMessage m ≫= text)) [].

Definition user_message (text : jsstring) (isGroup : bool) : jsstring :=
  js "User message: " ++ text ++ 10%N :: js "Context: "
  ++ (if isGroup then js "Group chat" else js "DM").

(** The [messages.upsert] listener of socket [s]. *)
Definition on_messages_upsert (s : SocketId) (messages : list WAMessage) : Eff unit :=
  let* msg := defined (head messages) "message" in
  match message msg with
  | None => ret tt
  | Some content =>
    if fromMe (key msg) then ret tt else
    let* from := defined (remoteJid (key msg)) "endsWith" in
    let isGroup := endsWith from (js "@g.us") in
    let text := extractText content in
    if trigger text then
      log (LogScriptReceived from text) >>
      let* aiReply := getAIResponse (user_message text isGroup) in
      call_send env s from
        {| out_text := BOT_NAME ++ js ": " ++ aiReply; out_mentions := None |} >>
      log (LogScriptReplied from aiReply)
    else ret tt
  end.

(** The [connection.update] listener. *)
Definition on_connection_update (update : ConnectionUpdate) : Eff unit :=
  match connection update with
  | Some ConnClose =>
      let shouldReconnect := negb (bool_decide (statusCode update = Some (loggedOut P))) in
      log (LogScriptClosed (statusCode update) shouldReconnect) >>
      if shouldReconnect then emit StartBot else ret tt
  | Some ConnOpen => log LogScriptConnected
  | _ => ret tt
  end.

(** [generatePairing()], which the script defines and never calls. *)
Definition generatePairing (s : SocketId) : Eff unit :=
  try_catch
    (let* code := call_pairing env s (removeFirst (js "+") PHONE_NUMBER) in
     log (LogScriptPairing PHONE_NUMBER code))
    (fun err => log (LogScriptPairingError err)).

End Script.
End IndexJs.

(** ** Notions the statements use *)

(** The keywords of the trigger, and the predicate the trigger reduces
    to when the redundant tests are dropped. *)
Definition keywords : list jsstring :=
  [js "karl"; js "@karl"; js "karl "; js "karl,"; js "assistant"; js "ai "].

Definition keyword_free (s : jsstring) : Prop :=
  forall k, k ∈ keywords -> ~ occurs k s.

Definition simplified_trigger (lowerText : jsstring) : bool :=
  includes lowerText (js "karl") || includes lowerText (js "assistant")
  || includes lowerText (js "ai ").

(** A pattern that neither starts nor ends with white space: [trim]
    cannot cut into an occurrence of it. *)
Definition solid (p : jsstring) : bool :=
  match p, rev p with
  | c :: _, d :: _ => negb (isWhiteSpace c) && negb (isWhiteSpace d)
  | _, _ => false
  end.

(** The runtime's lower-casing acts on ASCII code units one by one,
    whatever surrounds them. *)
Definition lowers_ascii (P : Platform) : Prop :=
  forall a m b, Forall (fun c => isASCII c = true) m ->
    exists a' b', toLowerCase P (a ++ m ++ b) = a' ++ asciiLowerCase m ++ b'.

(** Lower-casing a text of fewer than two code units does not make the
    bot's name appear. *)
Definition short_stays_nameless (P : Platform) : Prop :=
  forall t, (length t < 2)%nat -> ~ occurs (js "karl") (toLowerCase P t).

(** The reply [getAIResponse] chooses for a failure with message [m]. *)
Definition fallback_reply (m : jsstring) : jsstring :=
  if includes m (js "rate limit") then reply_busy
  else if includes m (js "invalid") then reply_checkup
  else reply_issues.

(** What [getAIResponse] returns for request [r]: nothing when the
    failure carries no [message], since reading it throws. *)
Definition aiReply_of (env : Env) (r : CompletionRequest) : option jsstring :=
  match completion env r with
  | Completed c => Some (or_default (trim <$> c) reply_empty)
  | Failed e => fallback_reply <$> exn_message e
  end.

(** The chat kind, the context and the request [handleMessage] builds for
    message [msg] with content [content] from chat [from]. *)
Definition isGroup_of (from : jsstring) : bool := endsWith from (js "@g.us").

Definition context_of (msg : WAMessage) (from : jsstring) : jsstring :=
  if isGroup_of from then group_context (or_default (pushName msg) (js "User"))
  else direct_context (or_default (pushName msg) (js "User")).

Definition request_of (msg : WAMessage) (content : MessageContent) (from : jsstring)
  : CompletionRequest :=
  completion_request (extractText content) (context_of msg from).

(** An inbound message the handlers must ignore: it comes from the bot,
    or it has no content, or its text has fewer than two code units. *)
Definition ignorable (msg : WAMessage) : Prop :=
  fromMe (key msg) = true \/
  match message msg with
  | None => True
  | Some content => (length (extractText content) < 2)%nat
  end.

(** An inbound message that passes every guard of [handleMessage]:
    content [content], chat [from], text of two code units or more that
    satisfies the trigger. *)
Definition triggering (P : Platform) (msg : WAMessage) (content : MessageContent)
    (from : jsstring) : Prop :=
  message msg = Some content /\ fromMe (key msg) = false
  /\ remoteJid (key msg) = Some from
  /\ (2 <= length (extractText content))%nat
  /\ triggered (lowerText P (extractText content)) = true.

(** A trace without a send and without a completion call. *)
Definition quiet (t : list Event) : Prop := sends t = [] /\ completions t = [].

(** The record [requestPairingCode] stores for code [code]. *)
Definition pairing_record (P : Platform) (env : Env) (code : jsstring) : PairingRecord :=
  {| pr_timestamp := now env; pr_phone := PHONE_NUMBER P;
     pr_code := code; pr_status := js "generated" |}.

(** The JID [POST /send/:number] sends to. *)
Definition send_target (number : jsstring) : jsstring :=
  stripNonDigits number ++ js "@s.whatsapp.net".

(** A close event with status [code]. *)
Definition close_event (code : option Z) : ConnectionUpdate :=
  {| connection := Some ConnClose; statusCode := code; qr := None |}.

(** The counter after the [connection.update] listener has run. *)
Definition next_attempts (P : Platform) (u : ConnectionUpdate) (b : Bot) : Z :=
  match connection u with
  | Some ConnClose =>
      if bool_decide (statusCode u = Some (loggedOut P)) then reconnectAttempts b
      else if reconnectAttempts b <? maxReconnectAttempts b then reconnectAttempts b + 1
      else reconnectAttempts b
  | Some ConnOpen => 0
  | _ => reconnectAttempts b
  end.

(** A computation that takes the bot object to one related to it by [R]. *)
Definition preserves {A} (R : relation Bot) (m : Eff A) : Prop :=
  forall st, R (bot st) (bot (store_of (m st))).

(** Both counters are as they were. *)
Definition same_counters : relation Bot :=
  fun b b' =>
    reconnectAttempts b' = reconnectAttempts b
    /\ maxReconnectAttempts b' = maxReconnectAttempts b.

(** A socket once stored is still stored. *)
Definition socket_kept : relation Bot :=
  fun b b' => is_Some (sock b) -> is_Some (sock b').

(** The bot object with socket [s] stored, as [initialize] leaves it. *)
Definition with_socket (s : SocketId) (b : Bot) : Bot :=
  {| sock := Some s; isConnected := isConnected b;
     reconnectAttempts := reconnectAttempts b;
     maxReconnectAttempts := maxReconnectAttempts b |}.

(** [n] close events in a row with status [code], from store [st]: the
    store left and the delays of the timers set, in order. *)
Fixpoint closes (P : Platform) (env : Env) (code : option Z) (n : nat) (st : Store)
  : Store * list Z :=
  match n with
  | O => (st, [])
  | S n' =>
      let r := on_connection_update P env (close_event code) st in
      let delays := snd <$> timers (trace_of r) in
      let rest := closes P env code n' (store_of r) in
      (rest.1, delays ++ rest.2)
  end.

(** The bot object once the close branch has cleared [isConnected]. *)
Definition disconnected (b : Bot) : Bot :=
  {| sock := sock b; isConnected := false;
     reconnectAttempts := reconnectAttempts b;
     maxReconnectAttempts := maxReconnectAttempts b |}.

(** ** A concrete platform for running the model *)

(** ASCII lower-casing, the session library's code 401 for a logged-out
    close, and no [PHONE_NUMBER] in the environment. *)
Definition ascii_platform : Platform :=
  {| toLowerCase := asciiLowerCase; loggedOut := 401; env_PHONE_NUMBER := None |}.

(** An environment whose completion client rejects with [message], whose
    transport accepts every send, and whose other calls succeed. *)
Definition failing_completion (message : jsstring) : Env :=
  {| completion := fun _ => Failed (Thrown (Some message));
     sendMessage := fun _ _ _ => Sent (Some (Some (js "3EB0")));
     pairingCode := fun _ _ => PairingCode (js "ABCD1234");
     registered := fun _ => true;
     makeSocket := SocketMade 1%N;
     writeFileSync := fun _ => None;
     now := js "2025-01-01T00:00:00.000Z" |}.

(** An environment whose completion client answers [answer]. *)
Definition answering (answer : jsstring) : Env :=
  {| completion := fun _ => Completed (Some answer);
     sendMessage := fun _ _ _ => Sent (Some (Some (js "3EB0")));
     pairingCode := fun _ _ => PairingCode (js "ABCD1234");
     registered := fun _ => true;
     makeSocket := SocketMade 1%N;
     writeFileSync := fun _ => None;
     now := js "2025-01-01T00:00:00.000Z" |}.

(** A text message [body] in chat [jid], not from the bot. *)
Definition text_message (jid body : jsstring) (sender : option jsstring) : WAMessage :=
  {| key := {| remoteJid := Some jid; fromMe := false; participant := sender |};
     message := Some {| conversation := Some body; extendedTextMessage := None;
                        imageMessage := None; videoMessage := None |};
     pushName := Some (js "Tendai") |}.

(** A store whose bot is connected through socket [s]. *)
Definition connected_store (s : SocketId) : Store :=
  {| bot := {| sock := Some s; isConnected := true;
               reconnectAttempts := 0; maxReconnectAttempts := 5 |};
     files := ∅ |}.

(** Two chats and a group member. *)
Definition direct_chat : jsstring := js "263771234567@s.whatsapp.net".
Definition group_chat : jsstring := js "120363041234567890@g.us".
Definition sender : jsstring := js "263779876543@s.whatsapp.net".

(** Environments that differ from [env] in one answer. *)
Definition set_completion (o : CompletionOutcome) (env : Env) : Env :=
  {| completion := fun _ => o; sendMessage := sendMessage env;
     pairingCode := pairingCode env; registered := registered env;
     makeSocket := makeSocket env; writeFileSync := writeFileSync env;
     now := now env |}.

Definition set_pairing (o : PairingOutcome) (env : Env) : Env :=
  {| completion := completion env; sendMessage := sendMessage env;
     pairingCode := fun _ _ => o; registered := registered env;
     makeSocket := makeSocket env; writeFileSync := writeFileSync env;
     now := now env |}.

Definition set_socket (o : SocketOutcome) (env : Env) : Env :=
  {| completion := completion env; sendMessage := sendMessage env;
     pairingCode := pairingCode env; registered := registered env;
     makeSocket := o; writeFileSync := writeFileSync env;
     now := now env |}.

Definition set_registered (r : bool) (env : Env) : Env :=
  {| completion := completion env; sendMessage := sendMessage env;
     pairingCode := pairingCode env; registered := fun _ => r;
     makeSocket := makeSocket env; writeFileSync := writeFileSync env;
     now := now env |}.

(** A bot that holds socket [s], is not connected and has retried three
    times. *)
Definition retrying_store (s : SocketId) : Store :=
  {| bot := {| sock := Some s; isConnected := false;
               reconnectAttempts := 3; maxReconnectAttempts := 5 |};
     files := ∅ |}.

(** A store whose [pairing_log.json] holds the record of an earlier
    code. *)
Definition paired_before : Store :=
  {| bot := constructor;
     files := {[ pairing_log :=
                   {| pr_timestamp := js "2024-12-31T23:00:00.000Z";
                      pr_phone := js "+263777965084"; pr_code := js "OLDC0DE1";
                      pr_status := js "generated" |} ]} |}.

(** An image message with caption [body] in chat [jid]. *)
Definition caption_message (jid body : jsstring) : WAMessage :=
  {| key := {| remoteJid := Some jid; fromMe := false; participant := None |};
     message := Some {| conversation := None; extendedTextMessage := None;
                        imageMessage := Some {| caption := Some body |};
                        videoMessage := None |};
     pushName := Some (js "Tendai") |}.

(** * Properties *)

(** ** Strings *)

Section StringFacts.

Implicit Types s p q a b : jsstring.

Lemma startsWith_spec s p : startsWith s p = true <-> exists b, s = p ++ b.
Proof.
  revert s; induction p as [|c p IH]; intros s.
  - destruct s; simpl; (split; [intros _; eexists; reflexivity | reflexivity]).
  - destruct s as [|d s]; simpl.
    + split; [discriminate | intros [b Hb]; discriminate].
    + rewrite andb_true_iff, N.eqb_eq, IH. split.
      * intros [-> [b ->]]; eauto.
      * intros [b Hb]; injection Hb as -> ->; eauto.
Qed.

Lemma includes_nil p : includes [] p = startsWith [] p.
Proof. destruct p; reflexivity. Qed.

Lemma includes_cons c s p :
  includes (c :: s) p = startsWith (c :: s) p || includes s p.
Proof. reflexivity. Qed.

Lemma includes_spec s p : includes s p = true <-> occurs p s.
Proof.
  unfold occurs. induction s as [|c s IH].
  - rewrite includes_nil, startsWith_spec. split.
    + intros [b Hb]. exists [], b. exact Hb.
    + intros (a & b & Hab). destruct a; [eauto|discriminate].
  - rewrite includes_cons, orb_true_iff, startsWith_spec, IH. split.
    + intros [[b Hb]|(a & b & ->)].
      * exists [], b. exact Hb.
      * exists (c :: a), b. reflexivity.
    + intros (a & b & Hab). destruct a as [|d a].
      * left. exists b. exact Hab.
      * right. injection Hab as -> ->. eauto.
Qed.

Lemma includes_false s p : includes s p = false <-> ~ occurs p s.
Proof.
  rewrite <- includes_spec. destruct (includes s p); split; congruence.
Qed.

Lemma occurs_refl p : occurs p p.
Proof. exists [], []. simpl. now rewrite app_nil_r. Qed.

Lemma occurs_trans q p s : occurs q p -> occurs p s -> occurs q s.
Proof.
  intros (a & b & ->) (c & d & ->).
  exists (c ++ a), (b ++ d). now rewrite <- !app_assoc.
Qed.

Lemma occurs_app p s a b : occurs p s -> occurs p (a ++ s ++ b).
Proof. intros H. apply (occurs_trans _ s); [exact H | now exists a, b]. Qed.

Lemma occurs_rev p s : occurs p s -> occurs (rev p) (rev s).
Proof.
  intros (a & b & ->). exists (rev b), (rev a).
  now rewrite !rev_app_distr, <- app_assoc.
Qed.

Lemma occurs_length p s : occurs p s -> (length p <= length s)%nat.
Proof. intros (a & b & ->). rewrite !length_app. lia. Qed.

Lemma includes_mono s p q :
  occurs q p -> includes s p = true -> includes s q = true.
Proof. rewrite !includes_spec. apply occurs_trans. Qed.

Lemma startsWith_includes s p : startsWith s p = true -> includes s p = true.
Proof.
  rewrite startsWith_spec, includes_spec. intros [b ->]. now exists [], b.
Qed.

(** [trimStart] drops a prefix and [trimEnd] a suffix, so the trimmed
    text occurs in the text. *)
Lemma trimStart_occurs s : occurs (trimStart s) s.
Proof.
  induction s as [|c s IH]; simpl.
  - apply occurs_refl.
  - destruct (isWhiteSpace c); [|apply occurs_refl].
    apply (occurs_trans _ s); [exact IH|]. exists [c], []. simpl. now rewrite app_nil_r.
Qed.

Lemma trimEnd_occurs s : occurs (trimEnd s) s.
Proof.
  unfold trimEnd. rewrite <- (rev_involutive s) at 2.
  apply occurs_rev, trimStart_occurs.
Qed.

Lemma trim_occurs s : occurs (trim s) s.
Proof.
  unfold trim. eapply occurs_trans; [apply trimEnd_occurs | apply trimStart_occurs].
Qed.

Lemma trimStart_keeps p s c :
  isWhiteSpace c = false -> occurs (c :: p) s -> occurs (c :: p) (trimStart s).
Proof.
  intros Hc. induction s as [|d s IH]; simpl; intros Hocc.
  - exact Hocc.
  - destruct (isWhiteSpace d) eqn:Hd; [|exact Hocc].
    apply IH. destruct Hocc as (a & b & Hab). destruct a as [|e a].
    + simpl in Hab. injection Hab as -> _. congruence.
    + injection Hab as -> ->. now exists a, b.
Qed.

Lemma trim_keeps p s : solid p = true -> occurs p s -> occurs p (trim s).
Proof.
  unfold solid. destruct p as [|c p]; [discriminate|].
  destruct (rev (c :: p)) as [|d r] eqn:Hr; [discriminate|].
  rewrite andb_true_iff, !negb_true_iff. intros [Hc Hd] Hocc.
  apply (trimStart_keeps p s c Hc) in Hocc.
  apply occurs_rev in Hocc. rewrite Hr in Hocc.
  apply (trimStart_keeps r _ d Hd) in Hocc.
  apply occurs_rev in Hocc. rewrite <- Hr, rev_involutive in Hocc.
  exact Hocc.
Qed.

Lemma includes_trim s p :
  solid p = true -> includes (trim s) p = includes s p.
Proof.
  intros Hp. apply eq_true_iff_eq. rewrite !includes_spec. split.
  - intros H. eapply occurs_trans; [exact H | apply trim_occurs].
  - apply trim_keeps, Hp.
Qed.

Lemma stripNonDigits_digits s : Forall (fun c => isDigit c = true) (stripNonDigits s).
Proof.
  unfold stripNonDigits. induction s as [|c s IH]; [constructor|].
  rewrite filter_cons. destruct (decide (isDigit c = true)); [constructor|]; assumption.
Qed.

Lemma stripNonDigits_id s :
  Forall (fun c => isDigit c = true) s -> stripNonDigits s = s.
Proof.
  unfold stripNonDigits. induction 1 as [|c s Hc _ IH]; [reflexivity|].
  rewrite filter_cons. destruct (decide (isDigit c = true)); [|contradiction].
  now rewrite IH.
Qed.

Lemma lowerUnit_ascii c :
  isASCII (lowerUnit c) = true -> isASCII c = true.
Proof.
  unfold isASCII, lowerUnit.
  destruct ((65 <=? c) && (c <=? 90))%N eqn:H; [|auto].
  apply andb_true_iff in H as [_ H%N.leb_le]. intros _. apply N.ltb_lt. lia.
Qed.

Lemma asciiLowerCase_lowers : lowers_ascii ascii_platform.
Proof.
  intros a m b _. exists (asciiLowerCase a), (asciiLowerCase b).
  simpl. unfold asciiLowerCase. now rewrite !map_app.
Qed.

End StringFacts.

(** ** The trigger *)

Section Trigger.

Variable P : Platform.

Lemma at_karl_names s : includes s (js "@karl") = true -> includes s (js "karl") = true.
Proof. apply includes_mono. now exists [64%N], []. Qed.

Lemma karl_space_names s : startsWith s (js "karl ") = true -> includes s (js "karl") = true.
Proof.
  intros H%startsWith_includes. revert H. apply includes_mono. now exists [], [32%N].
Qed.

Lemma karl_comma_names s : startsWith s (js "karl,") = true -> includes s (js "karl") = true.
Proof.
  intros H%startsWith_includes. revert H. apply includes_mono. now exists [], [44%N].
Qed.

Lemma triggered_simplified s : triggered s = simplified_trigger s.
Proof.
  unfold triggered, triggers, simplified_trigger. cbn [existsb].
  pose proof (at_karl_names s) as Hat.
  pose proof (karl_space_names s) as Hsp.
  pose proof (karl_comma_names s) as Hco.
  destruct (includes s (js "karl")); [reflexivity|].
  destruct (includes s (js "@karl")); [now specialize (Hat eq_refl)|].
  destruct (startsWith s (js "karl ")); [now specialize (Hsp eq_refl)|].
  destruct (startsWith s (js "karl,")); [now specialize (Hco eq_refl)|].
  cbn [orb]. now rewrite orb_false_r.
Qed.

Lemma triggered_karl s : occurs (js "karl") s -> triggered s = true.
Proof.
  intros H%includes_spec. rewrite triggered_simplified.
  unfold simplified_trigger. now rewrite H.
Qed.

Lemma keyword_free_quiet s : keyword_free s -> triggered s = false.
Proof.
  intros Hfree. rewrite triggered_simplified. unfold simplified_trigger.
  rewrite !orb_false_iff, !includes_false.
  repeat split; apply Hfree; unfold keywords; set_solver.
Qed.

(** The name survives [trim]: it has no white space at either end. *)
Lemma lowerText_names text :
  includes (lowerText P text) (js "karl") = includes (toLowerCase P text) (js "karl").
Proof. unfold lowerText. now apply includes_trim. Qed.

Lemma script_trigger_karl text :
  occurs (js "karl") (lowerText P text) -> IndexJs.trigger P text = true.
Proof.
  intros H%includes_spec. rewrite lowerText_names in H.
  unfold IndexJs.trigger. now rewrite H.
Qed.

Lemma script_trigger_quiet text :
  keyword_free (lowerText P text) -> keyword_free text -> IndexJs.trigger P text = false.
Proof.
  intros Hlow Hraw. unfold IndexJs.trigger.
  rewrite <- lowerText_names, orb_false_iff, !includes_false.
  split; [apply Hlow | apply Hraw]; unfold keywords; set_solver.
Qed.

(** Deciding [keyword_free] by running [includes]. *)
Lemma keyword_free_check s :
  forallb (fun k => negb (includes s k)) keywords = true -> keyword_free s.
Proof.
  rewrite forallb_forall. intros H k Hk%list_elem_of_In.
  apply includes_false, negb_true_iff, H, Hk.
Qed.

(** C1. The trigger on an inbound text: if the lower-cased, trimmed text
    contains "karl", the trigger of [handleMessage] and the trigger of the
    [index.js] listener are both true; if it contains none of the
    keywords, the trigger of [handleMessage] is false, and so is the one
    of [index.js] when the text as written contains none either. *)
Theorem trigger_on_keywords (text : jsstring) :
  (occurs (js "karl") (lowerText P text) ->
     triggered (lowerText P text) = true /\ IndexJs.trigger P text = true)
  /\ (keyword_free (lowerText P text) -> triggered (lowerText P text) = false)
  /\ (keyword_free (lowerText P text) -> keyword_free text ->
        IndexJs.trigger P text = false).
Proof.
  split; [|split].
  - intros H. split; [now apply triggered_karl | now apply script_trigger_karl].
  - apply keyword_free_quiet.
  - apply script_trigger_quiet.
Qed.

(** C10. The trigger of [handleMessage] equals the simplified predicate
    (contains "karl", or "assistant", or "ai "): the "@karl" test and the
    two prefix tests each imply that "karl" is contained. *)
Theorem trigger_refines_simplified (text : jsstring) :
  triggered (lowerText P text) = simplified_trigger (lowerText P text)
  /\ (includes (lowerText P text) (js "@karl") = true ->
        includes (lowerText P text) (js "karl") = true)
  /\ (startsWith (lowerText P text) (js "karl ") = true ->
        includes (lowerText P text) (js "karl") = true)
  /\ (startsWith (lowerText P text) (js "karl,") = true ->
        includes (lowerText P text) (js "karl") = true).
Proof.
  split; [apply triggered_simplified|].
  split; [apply at_karl_names|].
  split; [apply karl_space_names | apply karl_comma_names].
Qed.

(** X27. With a runtime that lower-cases ASCII letters in place, a text
    that contains the name in any letter case triggers both scripts. *)
Lemma name_in_any_case (a m b : jsstring) :
  lowers_ascii P -> asciiLowerCase m = js "karl" ->
  triggered (lowerText P (a ++ m ++ b)) = true
  /\ IndexJs.trigger P (a ++ m ++ b) = true.
Proof.
  intros Hlow Hm.
  assert (Hascii : Forall (fun c => isASCII c = true) m).
  { apply Forall_forall. intros c Hc. apply lowerUnit_ascii.
    assert (Hin : lowerUnit c ∈ asciiLowerCase m) by (apply list_elem_of_fmap; eauto).
    rewrite Hm in Hin. revert Hin. generalize (lowerUnit c). intros d Hd.
    repeat (apply elem_of_cons in Hd as [->|Hd]; [reflexivity|]).
    now apply elem_of_nil in Hd. }
  destruct (Hlow a m b Hascii) as (a' & b' & Heq).
  assert (Hocc : occurs (js "karl") (lowerText P (a ++ m ++ b))).
  { unfold lowerText. apply trim_keeps; [reflexivity|].
    rewrite Heq, Hm. now exists a', b'. }
  split; [now apply triggered_karl | now apply script_trigger_karl].
Qed.

End Trigger.

(** ** Inbound messages *)

Section Inbound.
Variable P : Platform.
Variable env : Env.

Lemma getAIResponse_run message context st :
  getAIResponse env message context st =
  (match aiReply_of env (completion_request message context) with
   | Some r => Returned r
   | None => Raised (TypeError "includes")
   end, st,
   CompletionCall (completion_request message context) ::
   match completion env (completion_request message context) with
   | Completed _ => []
   | Failed e => [Console (LogAIError (exn_message e))]
   end).
Proof.
  unfold getAIResponse, aiReply_of, call_completion, try_catch, bind, emit, log, emit, defined, fallback_reply.
  destruct (completion env _) as [c|e]; [reflexivity|].
  cbn. destruct (exn_message e) as [m|]; cbn; [|reflexivity].
  destruct (includes m (js "rate limit")); [reflexivity|].
  destruct (includes m (js "invalid")); reflexivity.
Qed.

Lemma length_guard (text : jsstring) :
  negb (truthy (Some text)) || (length text <? 2)%nat = (length text <? 2)%nat.
Proof. destruct text as [|c [|d t]]; reflexivity. Qed.

Lemma handleMessage_ignores msg st :
  ignorable msg ->
  store_of (handleMessage P env msg st) = st
  /\ result_of (handleMessage P env msg st) = Returned tt
  /\ quiet (trace_of (handleMessage P env msg st))
  /\ (is_Some (remoteJid (key msg)) -> trace_of (handleMessage P env msg st) = []).
Proof.
  unfold ignorable, handleMessage.
  destruct (message msg) as [content|]; [|intros _; cbn; repeat split; reflexivity].
  destruct (fromMe (key msg)); [intros _; cbn; repeat split; reflexivity|].
  intros [Hme|Hlen]; [discriminate|].
  apply Nat.ltb_lt in Hlen.
  destruct (remoteJid (key msg)) as [from|]; cbv [try_catch bind defined ret throw].
  - rewrite length_guard, Hlen. cbn. repeat split; reflexivity.
  - cbn. repeat split; try reflexivity. intros [x Hx]; discriminate.
Qed.

Lemma handleMessage_replies msg content from st :
  triggering P msg content from ->
  store_of (handleMessage P env msg st) = st
  /\ result_of (handleMessage P env msg st) = Returned tt
  /\ completions (trace_of (handleMessage P env msg st)) = [request_of msg content from]
  /\ sends (trace_of (handleMessage P env msg st)) =
       match aiReply_of env (request_of msg content from), sock (bot st) with
       | Some reply, Some s =>
           [(s, from, replyMessage (isGroup_of from)
                        (lowerText P (extractText content)) reply (key msg))]
       | _, _ => []
       end.
Proof.
  intros (Hmsg & Hme & Hjid & Hlen & Htrig).
  unfold handleMessage. rewrite Hmsg, Hme, Hjid.
  cbv [try_catch bind defined ret throw].
  rewrite length_guard. apply Nat.ltb_ge in Hlen. rewrite Hlen, Htrig.
  cbn [negb log emit]. rewrite getAIResponse_run.
  fold (isGroup_of from). fold (context_of msg from).
  unfold request_of, aiReply_of, get_bot, call_send, bind, emit, ret.
  destruct (completion env _) as [c|e]; cbn.
  - destruct (sock (bot st)) as [s|]; cbn; [|repeat split; reflexivity].
    destruct (sendMessage env s from _); cbn; repeat split; reflexivity.
  - destruct (exn_message e) as [m|]; cbn; [|repeat split; reflexivity].
    destruct (sock (bot st)) as [s|]; cbn; [|repeat split; reflexivity].
    destruct (sendMessage env s from _); cbn; repeat split; reflexivity.
Qed.


Lemma script_extract_short content :
  (length (extractText content) < 2)%nat ->
  (length (IndexJs.extractText content) < 2)%nat.
Proof.
  unfold extractText, IndexJs.extractText, or_else.
  destruct (conversation content) as [[|c t]|];
    destruct (extendedTextMessage content ≫= text) as [[|d u]|]; cbn; lia.
Qed.

Lemma script_trigger_short text :
  short_stays_nameless P -> (length text < 2)%nat -> IndexJs.trigger P text = false.
Proof.
  intros Hshort Hlen. unfold IndexJs.trigger.
  rewrite orb_false_iff, !includes_false. split; [now apply Hshort|].
  intros Hocc%occurs_length. change (length (js "@karl")) with 5%nat in Hocc. lia.
Qed.

Lemma script_ignores s msg rest st :
  short_stays_nameless P -> ignorable msg ->
  store_of (IndexJs.on_messages_upsert P env s (msg :: rest) st) = st
  /\ quiet (trace_of (IndexJs.on_messages_upsert P env s (msg :: rest) st)).
Proof.
  intros Hshort. unfold ignorable, IndexJs.on_messages_upsert.
  cbv [head bind defined ret throw].
  destruct (message msg) as [content|]; [|intros _; cbn; repeat split; reflexivity].
  destruct (fromMe (key msg)); [intros _; cbn; repeat split; reflexivity|].
  intros [Hme|Hlen]; [discriminate|].
  apply script_extract_short, (script_trigger_short _ Hshort) in Hlen.
  destruct (remoteJid (key msg)) as [from|]; [rewrite Hlen|]; cbn;
    repeat split; reflexivity.
Qed.

(** C2. A message from the bot itself, without content, or whose text
    (the first non-empty of body, extended text, image caption, video
    caption) has fewer than two code units: [handleMessage] returns
    without a send and without a completion call, leaving the store as it
    was, and with an empty trace when the chat id is there.  The
    [index.js] listener does the same on a runtime whose lower-casing
    cannot produce the name from so short a text. *)
Theorem ignored_message_is_no_op (msg : WAMessage) (st : Store) :
  ignorable msg ->
  (store_of (handleMessage P env msg st) = st
   /\ result_of (handleMessage P env msg st) = Returned tt
   /\ quiet (trace_of (handleMessage P env msg st))
   /\ (is_Some (remoteJid (key msg)) -> trace_of (handleMessage P env msg st) = []))
  /\ (short_stays_nameless P -> forall s rest,
        store_of (IndexJs.on_messages_upsert P env s (msg :: rest) st) = st
        /\ quiet (trace_of (IndexJs.on_messages_upsert P env s (msg :: rest) st))).
Proof.
  intros Hign. split; [now apply handleMessage_ignores|].
  intros Hshort s rest. now apply script_ignores.
Qed.

(** C3. A triggering message while the completion client fails with a
    message that contains "rate limit": [handleMessage] sends exactly
    once, to the chat of the message, the bot name followed by the busy
    apology, and returns normally. *)
Theorem rate_limit_is_answered (msg : WAMessage) (content : MessageContent)
    (from : jsstring) (st : Store) (s : SocketId) (e : exn) (m : jsstring) :
  triggering P msg content from ->
  sock (bot st) = Some s ->
  completion env (request_of msg content from) = Failed e ->
  exn_message e = Some m ->
  occurs (js "rate limit") m ->
  sends (trace_of (handleMessage P env msg st)) =
    [(s, from, replyMessage (isGroup_of from) (lowerText P (extractText content))
                 reply_busy (key msg))]
  /\ out_text (replyMessage (isGroup_of from) (lowerText P (extractText content))
                 reply_busy (key msg)) = BOT_NAME ++ js ": " ++ reply_busy
  /\ result_of (handleMessage P env msg st) = Returned tt.
Proof.
  intros Htrig Hsock Hfail Hmsg Hrate%includes_spec.
  destruct (handleMessage_replies msg content from st Htrig) as (_ & Hres & _ & Hsends).
  rewrite Hsends. unfold aiReply_of. rewrite Hfail, Hmsg, Hsock. cbn.
  unfold fallback_reply. rewrite Hrate. repeat split; assumption.
Qed.

Lemma mentionsBot_names s : mentionsBot s = includes s (js "karl").
Proof.
  unfold mentionsBot. pose proof (at_karl_names s) as H.
  destruct (includes s (js "@karl")); [now rewrite H | reflexivity].
Qed.

(** C6. Every reply [handleMessage] sends for a triggering message goes
    to the chat of the message, its text is the bot name, a colon and the
    reply, and it carries the sender ([msg.key.participant]) as its one
    mention exactly when the chat is a group and the text names the bot
    ("@karl" or "karl"); with a socket and a reply from [getAIResponse]
    there is exactly one such send. *)
Theorem reply_names_bot_and_mentions_sender (msg : WAMessage)
    (content : MessageContent) (from : jsstring) (st : Store) :
  triggering P msg content from ->
  (forall s to m, (s, to, m) ∈ sends (trace_of (handleMessage P env msg st)) ->
     to = from
     /\ (exists aiReply, out_text m = BOT_NAME ++ js ": " ++ aiReply)
     /\ (out_mentions m = Some [participant (key msg)] <->
           isGroup_of from = true
           /\ mentionsBot (lowerText P (extractText content)) = true)
     /\ (out_mentions m = None <->
           ~ (isGroup_of from = true
              /\ mentionsBot (lowerText P (extractText content)) = true)))
  /\ (forall s reply,
        sock (bot st) = Some s ->
        aiReply_of env (request_of msg content from) = Some reply ->
        sends (trace_of (handleMessage P env msg st)) =
          [(s, from, replyMessage (isGroup_of from)
                       (lowerText P (extractText content)) reply (key msg))]).
Proof.
  intros Htrig.
  destruct (handleMessage_replies msg content from st Htrig) as (_ & _ & _ & Hsends).
  split.
  - intros s to m Hin. rewrite Hsends in Hin.
    destruct (aiReply_of env _) as [reply|]; [|now apply elem_of_nil in Hin].
    destruct (sock (bot st)) as [s'|]; [|now apply elem_of_nil in Hin].
    apply list_elem_of_singleton in Hin. injection Hin as -> -> ->.
    split; [reflexivity|]. split; [now exists reply|].
    unfold replyMessage; cbn [out_mentions].
    destruct (isGroup_of from), (mentionsBot _); cbn; intuition congruence.
  - intros s reply Hsock Hreply. now rewrite Hsends, Hreply, Hsock.
Qed.

End Inbound.

(** ** Pairing *)

Section Pairing.

Variable P : Platform.
Variable env : Env.

Lemma requestPairingCode_without_socket st :
  sock (bot st) = None ->
  requestPairingCode P env st = (Returned tt, st, [Console LogSocketNotReady]).
Proof.
  intros Hsock. unfold requestPairingCode.
  cbv [try_catch bind get_bot log emit]. now rewrite Hsock.
Qed.

Lemma requestPairingCode_with_socket st s :
  sock (bot st) = Some s ->
  pairings (trace_of (requestPairingCode P env st)) = [(s, stripNonDigits (PHONE_NUMBER P))]
  /\ timers (trace_of (requestPairingCode P env st)) = []
  /\ sends (trace_of (requestPairingCode P env st)) = []
  /\ bot (store_of (requestPairingCode P env st)) = bot st
  /\ files (store_of (requestPairingCode P env st)) =
       match pairingCode env s (stripNonDigits (PHONE_NUMBER P)),
             writeFileSync env pairing_log with
       | PairingCode code, None => <[pairing_log := pairing_record P env code]> (files st)
       | _, _ => files st
       end.
Proof.
  intros Hsock. unfold requestPairingCode.
  cbv [try_catch bind get_bot log emit call_pairing write_file defined ret throw].
  rewrite Hsock.
  destruct (pairingCode env s _) as [code|e]; cbn.
  - destruct (writeFileSync env pairing_log) as [e|]; cbn; [|repeat split; reflexivity].
    destruct (exn_message e) as [m|]; cbn; [|repeat split; reflexivity].
    destruct (includes m (js "already paired") || includes m (js "authenticated"));
      cbn; repeat split; reflexivity.
  - destruct (exn_message e) as [m|]; cbn; [|repeat split; reflexivity].
    destruct (includes m (js "already paired") || includes m (js "authenticated"));
      cbn; repeat split; reflexivity.
Qed.

(** C8. [requestPairingCode]: without a socket it only prints the
    warning; with socket [s] it asks that socket once for a code, for the
    configured phone number with every non-digit removed, and leaves the
    bot object alone; when the code arrives and the write succeeds the
    record of this call is what [pairing_log.json] holds afterwards,
    whatever it held before. *)
Theorem pairing_code_request (st : Store) :
  (sock (bot st) = None ->
     requestPairingCode P env st = (Returned tt, st, [Console LogSocketNotReady]))
  /\ (forall s, sock (bot st) = Some s ->
        pairings (trace_of (requestPairingCode P env st)) =
          [(s, stripNonDigits (PHONE_NUMBER P))]
        /\ Forall (fun c => isDigit c = true) (stripNonDigits (PHONE_NUMBER P))
        /\ bot (store_of (requestPairingCode P env st)) = bot st
        /\ (forall code,
              pairingCode env s (stripNonDigits (PHONE_NUMBER P)) = PairingCode code ->
              writeFileSync env pairing_log = None ->
              files (store_of (requestPairingCode P env st)) =
                <[pairing_log := pairing_record P env code]> (files st)
              /\ files (store_of (requestPairingCode P env st)) !! pairing_log =
                   Some (pairing_record P env code))).
Proof.
  split; [apply requestPairingCode_without_socket|].
  intros s Hsock.
  destruct (requestPairingCode_with_socket st s Hsock) as (Hp & _ & _ & Hb & Hf).
  split; [exact Hp|]. split; [apply stripNonDigits_digits|]. split; [exact Hb|].
  intros code Hcode Hwrite. rewrite Hf, Hcode, Hwrite.
  split; [reflexivity | apply lookup_insert_eq].
Qed.

(** The [index.js] helper asks with the first "+" removed only, and
    stores nothing. *)
Lemma script_generatePairing s st :
  pairings (trace_of (IndexJs.generatePairing P env s st)) =
    [(s, removeFirst (js "+") (IndexJs.PHONE_NUMBER P))]
  /\ store_of (IndexJs.generatePairing P env s st) = st.
Proof.
  unfold IndexJs.generatePairing.
  cbv [try_catch bind log emit call_pairing ret throw].
  destruct (pairingCode env s _); cbn; split; reflexivity.
Qed.

End Pairing.

(** Two successful requests in a row: the record of the second is the
    one stored. *)
Lemma pairing_last_write_wins P env env' st s code code' :
  sock (bot st) = Some s ->
  pairingCode env s (stripNonDigits (PHONE_NUMBER P)) = PairingCode code ->
  writeFileSync env pairing_log = None ->
  pairingCode env' s (stripNonDigits (PHONE_NUMBER P)) = PairingCode code' ->
  writeFileSync env' pairing_log = None ->
  files (store_of (requestPairingCode P env' (store_of (requestPairingCode P env st))))
  = <[pairing_log := pairing_record P env' code']> (files st).
Proof.
  intros Hsock Hc Hw Hc' Hw'.
  destruct (requestPairingCode_with_socket P env st s Hsock) as (_ & _ & _ & Hb & Hf).
  assert (Hsock' : sock (bot (store_of (requestPairingCode P env st))) = Some s)
    by now rewrite Hb.
  destruct (requestPairingCode_with_socket P env' _ s Hsock') as (_ & _ & _ & _ & Hf').
  rewrite Hf', Hc', Hw', Hf, Hc, Hw. apply insert_insert_eq.
Qed.

(** ** The connection *)

Section Connection.

Variable P : Platform.
Variable env : Env.

Lemma requestPairingCode_keeps_bot st :
  bot (store_of (requestPairingCode P env st)) = bot st.
Proof.
  destruct (sock (bot st)) as [s|] eqn:Hsock.
  - now destruct (requestPairingCode_with_socket P env st s Hsock) as (_ & _ & _ & Hb & _).
  - now rewrite requestPairingCode_without_socket.
Qed.

Lemma requestPairingCode_sets_no_timer st :
  timers (trace_of (requestPairingCode P env st)) = [].
Proof.
  destruct (sock (bot st)) as [s|] eqn:Hsock.
  - now destruct (requestPairingCode_with_socket P env st s Hsock) as (_ & Ht & _).
  - now rewrite requestPairingCode_without_socket.
Qed.

(** The listener on a close event whose status is the logged-out code. *)
Lemma close_logged_out u st :
  connection u = Some ConnClose ->
  statusCode u = Some (loggedOut P) ->
  let st1 := {| bot := disconnected (bot st); files := files st |} in
  store_of (on_connection_update P env u st) = store_of (requestPairingCode P env st1)
  /\ timers (trace_of (on_connection_update P env u st)) = []
  /\ pairings (trace_of (on_connection_update P env u st)) =
       pairings (trace_of (requestPairingCode P env st1)).
Proof.
  intros Hconn Hcode st1. unfold on_connection_update. rewrite Hconn, Hcode.
  rewrite bool_decide_eq_true_2 by reflexivity.
  pose proof (requestPairingCode_sets_no_timer st1) as Ht.
  destruct (truthy (qr u)); cbv [bind get_bot set_bot log emit ret];
    repeat match goal with
           | |- context [requestPairingCode P env ?x] =>
               lazymatch x with st1 => fail | _ => change x with st1 end
           end;
    destruct (requestPairingCode P env st1) as [[r st2] t2];
    unfold trace_of, store_of in *; cbn in *; rewrite ?Ht; repeat split; reflexivity.
Qed.

(** The listener on any other close event. *)
Lemma close_retry u st :
  connection u = Some ConnClose ->
  statusCode u <> Some (loggedOut P) ->
  (reconnectAttempts (bot st) < maxReconnectAttempts (bot st) ->
     reconnectAttempts (bot (store_of (on_connection_update P env u st))) =
       reconnectAttempts (bot st) + 1
     /\ timers (trace_of (on_connection_update P env u st)) =
          [(RetryInitialize, 5000 * (reconnectAttempts (bot st) + 1))])
  /\ (maxReconnectAttempts (bot st) <= reconnectAttempts (bot st) ->
       reconnectAttempts (bot (store_of (on_connection_update P env u st))) =
         reconnectAttempts (bot st)
       /\ timers (trace_of (on_connection_update P env u st)) = []
       /\ Console LogMaxReconnect ∈ trace_of (on_connection_update P env u st))
  /\ maxReconnectAttempts (bot (store_of (on_connection_update P env u st))) =
       maxReconnectAttempts (bot st)
  /\ sock (bot (store_of (on_connection_update P env u st))) = sock (bot st)
  /\ files (store_of (on_connection_update P env u st)) = files st
  /\ pairings (trace_of (on_connection_update P env u st)) = [].
Proof.
  intros Hconn Hcode. unfold on_connection_update. rewrite Hconn.
  rewrite bool_decide_eq_false_2 by exact Hcode.
  destruct (truthy (qr u)); cbv [bind get_bot set_bot log emit ret];
    cbn [bot files sock isConnected reconnectAttempts maxReconnectAttempts];
    destruct (reconnectAttempts (bot st) <? maxReconnectAttempts (bot st)) eqn:Hlt;
    [apply Z.ltb_lt in Hlt | apply Z.ltb_ge in Hlt
    |apply Z.ltb_lt in Hlt | apply Z.ltb_ge in Hlt]; cbn;
    (split; [intros Hl; first [lia | split; reflexivity]|]);
    (split; [intros Hge; first [lia | repeat split; try reflexivity; set_solver]|]);
    repeat split; reflexivity.
Qed.

Lemma closes_delays code k st :
  code <> Some (loggedOut P) ->
  maxReconnectAttempts (bot st) = 5 ->
  0 <= reconnectAttempts (bot st) <= 5 ->
  (closes P env code k st).2 =
    Z.mul 5000 <$> seqZ (reconnectAttempts (bot st) + 1)
                        (Z.min (Z.of_nat k) (5 - reconnectAttempts (bot st))).
Proof.
  intros Hcode. revert st. induction k as [|k IH]; intros st Hmax Hra.
  - cbn [closes snd]. rewrite seqZ_nil by lia. reflexivity.
  - cbn [closes snd].
    destruct (close_retry (close_event code) st eq_refl Hcode)
      as (Hlt & Hge & Hmax' & _).
    rewrite Hmax in Hlt, Hge, Hmax'.
    destruct (Z.lt_ge_cases (reconnectAttempts (bot st)) 5) as [Hl|Hg].
    + destruct (Hlt Hl) as [Hra' Ht]. rewrite Ht, IH by lia. rewrite Hra'.
      rewrite (seqZ_cons (reconnectAttempts (bot st) + 1)) by lia.
      cbn [fmap list_fmap app]. do 3 f_equal; lia.
    + destruct (Hge Hg) as (Hra' & Ht & _). rewrite Ht, IH by lia. rewrite Hra'.
      cbn [fmap list_fmap app]. rewrite !seqZ_nil by lia. reflexivity.
Qed.

(** C4. A close event whose status is not the logged-out code: below the
    maximum the counter goes up by one and one reconnection is scheduled
    after (new counter) x 5000 ms; at the maximum the counter stays, no
    timer is set and the "max reconnect attempts" line is printed.  From
    a fresh bot the maximum is 5, so [k] such events in a row schedule the
    delays 5000, 10000, ... for the first 5 of them and nothing after. *)
Theorem reconnect_backoff (code : option Z) :
  code <> Some (loggedOut P) ->
  (forall u st,
     connection u = Some ConnClose -> statusCode u = code ->
     (reconnectAttempts (bot st) < maxReconnectAttempts (bot st) ->
        reconnectAttempts (bot (store_of (on_connection_update P env u st))) =
          reconnectAttempts (bot st) + 1
        /\ timers (trace_of (on_connection_update P env u st)) =
             [(RetryInitialize, 5000 * (reconnectAttempts (bot st) + 1))])
     /\ (maxReconnectAttempts (bot st) <= reconnectAttempts (bot st) ->
          reconnectAttempts (bot (store_of (on_connection_update P env u st))) =
            reconnectAttempts (bot st)
          /\ timers (trace_of (on_connection_update P env u st)) = []
          /\ Console LogMaxReconnect ∈ trace_of (on_connection_update P env u st)))
  /\ maxReconnectAttempts constructor = 5
  /\ (forall fs k,
        (closes P env code k {| bot := constructor; files := fs |}).2 =
          Z.mul 5000 <$> seqZ 1 (Z.min (Z.of_nat k) 5)).
Proof.
  intros Hcode. split; [|split; [reflexivity|]].
  - intros u st Hconn Hu. rewrite <- Hu in Hcode.
    destruct (close_retry u st Hconn Hcode) as (Hlt & Hge & _). now split.
  - intros fs k. now rewrite closes_delays.
Qed.

Lemma script_close_logged_out u st :
  connection u = Some ConnClose ->
  statusCode u = Some (loggedOut P) ->
  IndexJs.on_connection_update P u st =
    (Returned tt, st, [Console (LogScriptClosed (Some (loggedOut P)) false)]).
Proof.
  intros Hconn Hcode. unfold IndexJs.on_connection_update. rewrite Hconn, Hcode.
  now rewrite bool_decide_eq_true_2.
Qed.

(** C5, as the code has it.  A close event with the logged-out code: the
    [WhatsAppBot] listener, whose bot holds socket [s], leaves the counter
    as it was, sets no timer and asks [s] once for a pairing code; the
    [index.js] listener starts no reconnection either, and asks for no
    pairing code. *)
Theorem logged_out_close (u : ConnectionUpdate) (st : Store) :
  connection u = Some ConnClose ->
  statusCode u = Some (loggedOut P) ->
  (forall s, sock (bot st) = Some s ->
     reconnectAttempts (bot (store_of (on_connection_update P env u st))) =
       reconnectAttempts (bot st)
     /\ timers (trace_of (on_connection_update P env u st)) = []
     /\ pairings (trace_of (on_connection_update P env u st)) =
          [(s, stripNonDigits (PHONE_NUMBER P))])
  /\ IndexJs.on_connection_update P u st =
       (Returned tt, st, [Console (LogScriptClosed (Some (loggedOut P)) false)]).
Proof.
  intros Hconn Hcode. split; [|now apply script_close_logged_out].
  intros s Hsock.
  destruct (close_logged_out u st Hconn Hcode) as (Hst & Ht & Hp).
  rewrite Hst, Ht, Hp, requestPairingCode_keeps_bot.
  repeat split.
  now destruct (requestPairingCode_with_socket P env
                  {| bot := disconnected (bot st); files := files st |} s Hsock)
    as (Hp' & _).
Qed.

End Connection.

(** ** The send route *)

Section SendRoute.

Variable env : Env.

Lemma post_send_rejects number message st :
  truthy message = false ->
  post_send env number message st =
    (Returned (status_json 400 (BodyError (js "Message required"))), st, []).
Proof. unfold post_send. now destruct message as [[|c m]|]. Qed.

Lemma post_send_connected number c m s st :
  isConnected (bot st) = true -> sock (bot st) = Some s ->
  trace_of (post_send env number (Some (c :: m)) st) =
    [TransportSend s (send_target number)
       {| out_text := c :: m; out_mentions := None |}]
  /\ store_of (post_send env number (Some (c :: m)) st) = st
  /\ result_of (post_send env number (Some (c :: m)) st) =
       Returned
         match sendMessage env s (send_target number)
                 {| out_text := c :: m; out_mentions := None |} with
         | Sent (Some id) => json (BodySent (send_target number) id)
         | Sent None => status_json 500 (BodyFailure (exn_message (TypeError "key")))
         | SendFailed e => status_json 500 (BodyFailure (exn_message e))
         end.
Proof.
  intros Hconn Hsock. unfold post_send, sendDirectMessage.
  cbv [try_catch bind get_bot call_send emit defined ret throw].
  rewrite Hconn, Hsock. fold (send_target number).
  destruct (sendMessage env s _ _) as [[id|]|e]; cbn; repeat split; reflexivity.
Qed.

Lemma post_send_disconnected number c m st :
  isConnected (bot st) = false \/ sock (bot st) = None ->
  post_send env number (Some (c :: m)) st =
    (Returned (status_json 500 (BodyFailure (Some (js "Bot not connected")))), st, []).
Proof.
  intros Hoff. unfold post_send, sendDirectMessage.
  cbv [try_catch bind get_bot call_send emit defined ret throw].
  destruct (isConnected (bot st)), (sock (bot st)); try reflexivity;
    destruct Hoff; discriminate.
Qed.

(** C7, as the code has it.  [POST /send/:number]: a body without a
    message, or with an empty one, gets 400 with [{error: "Message
    required"}] and nothing is sent; otherwise the target is the digits of
    [number] followed by "@s.whatsapp.net", and the route sends the
    message to it once when the bot is connected and holds a socket, and
    answers 500 with "Bot not connected", sending nothing, when it is
    not. *)
Theorem send_route (number : jsstring) (message : option jsstring) (st : Store) :
  (truthy message = false ->
     post_send env number message st =
       (Returned (status_json 400 (BodyError (js "Message required"))), st, []))
  /\ (forall m, message = Some m -> m <> [] ->
        (forall s, isConnected (bot st) = true -> sock (bot st) = Some s ->
           trace_of (post_send env number message st) =
             [TransportSend s (stripNonDigits number ++ js "@s.whatsapp.net")
                {| out_text := m; out_mentions := None |}])
        /\ (isConnected (bot st) = false \/ sock (bot st) = None ->
             post_send env number message st =
               (Returned (status_json 500 (BodyFailure (Some (js "Bot not connected")))),
                st, [])))
  /\ stripNonDigits (js "263771234567") ++ js "@s.whatsapp.net"
     = js "263771234567@s.whatsapp.net".
Proof.
  split; [apply post_send_rejects|]. split; [|reflexivity].
  intros m -> Hm. destruct m as [|c m]; [contradiction|]. split.
  - intros s Hconn Hsock. now destruct (post_send_connected number c m s st Hconn Hsock).
  - apply post_send_disconnected.
Qed.

End SendRoute.

(** ** What the handlers keep of the bot object *)

Create HintDb preserve.

Section Preservation.

Variable P : Platform.
Variable env : Env.
Variable R : relation Bot.
Context `{!Reflexive R} `{!Transitive R}.

Lemma pres_ret {A} (a : A) : preserves R (ret a).
Proof. intros st. reflexivity. Qed.

Lemma pres_throw {A} e : preserves R (@throw A e).
Proof. intros st. reflexivity. Qed.

Lemma pres_emit e : preserves R (emit e).
Proof. intros st. reflexivity. Qed.

Lemma pres_log l : preserves R (log l).
Proof. intros st. reflexivity. Qed.

Lemma pres_get_bot : preserves R get_bot.
Proof. intros st. reflexivity. Qed.

Lemma pres_get_files : preserves R get_files.
Proof. intros st. reflexivity. Qed.

Lemma pres_defined {A} (v : option A) p : preserves R (defined v p).
Proof. destruct v; intros st; reflexivity. Qed.

Lemma pres_set_bot f : (forall b, R b (f b)) -> preserves R (set_bot f).
Proof. intros Hf st. apply Hf. Qed.

Lemma pres_bind {A B} (m : Eff A) (k : A -> Eff B) :
  preserves R m -> (forall a, preserves R (k a)) -> preserves R (bind m k).
Proof.
  intros Hm Hk st. specialize (Hm st). unfold bind, store_of in *.
  destruct (m st) as [[[a|e] st1] t1]; cbn in *; [|exact Hm].
  specialize (Hk a st1). unfold store_of in Hk.
  destruct (k a st1) as [[r st2] t2]; cbn in *. now transitivity (bot st1).
Qed.

Lemma pres_try_catch {A} (m : Eff A) (h : exn -> Eff A) :
  preserves R m -> (forall e, preserves R (h e)) -> preserves R (try_catch m h).
Proof.
  intros Hm Hh st. specialize (Hm st). unfold try_catch, store_of in *.
  destruct (m st) as [[[a|e] st1] t1]; cbn in *; [exact Hm|].
  specialize (Hh e st1). unfold store_of in Hh.
  destruct (h e st1) as [[r st2] t2]; cbn in *. now transitivity (bot st1).
Qed.

Lemma pres_call_completion r : preserves R (call_completion env r).
Proof.
  intros st. unfold call_completion, bind, emit. destruct (completion env r); reflexivity.
Qed.

Lemma pres_call_send s to m : preserves R (call_send env s to m).
Proof.
  intros st. unfold call_send, bind, emit. destruct (sendMessage env s to m); reflexivity.
Qed.

Lemma pres_call_pairing s phone : preserves R (call_pairing env s phone).
Proof.
  intros st. unfold call_pairing, bind, emit. destruct (pairingCode env s phone); reflexivity.
Qed.

Lemma pres_write_file path r : preserves R (write_file env path r).
Proof. intros st. unfold write_file. destruct (writeFileSync env path); reflexivity. Qed.

#[local] Hint Resolve pres_ret pres_throw pres_emit pres_log pres_get_bot pres_get_files
  pres_defined pres_call_completion pres_call_send pres_call_pairing
  pres_write_file : preserve.

(** Walks a handler: binds and handlers by the two lemmas above, branches
    by cases, assignments to the bot by what is known of [R]. *)
Ltac preserve :=
  repeat first
    [ solve [auto with preserve]
    | apply pres_bind; [|intros ?]
    | apply pres_try_catch; [|intros ?]
    | apply pres_set_bot; solve [auto]
    | match goal with
      | |- preserves R (match ?x with _ => _ end) => destruct x
      end ].

Lemma pres_getAIResponse message context : preserves R (getAIResponse env message context).
Proof. unfold getAIResponse. preserve. Qed.

Lemma pres_handleMessage msg : preserves R (handleMessage P env msg).
Proof. unfold handleMessage. pose proof pres_getAIResponse. preserve. Qed.

Lemma pres_on_messages_upsert notify ms : preserves R (on_messages_upsert P env notify ms).
Proof.
  unfold on_messages_upsert. destruct notify, ms; auto using pres_handleMessage with preserve.
Qed.

Lemma pres_requestPairingCode : preserves R (requestPairingCode P env).
Proof. unfold requestPairingCode. preserve. Qed.

Lemma pres_sendDirectMessage to message : preserves R (sendDirectMessage env to message).
Proof. unfold sendDirectMessage. preserve. Qed.

Lemma pres_post_send number message : preserves R (post_send env number message).
Proof. unfold post_send. pose proof pres_sendDirectMessage. preserve. Qed.

Lemma pres_get_status : preserves R (get_status P env).
Proof. unfold get_status. preserve. Qed.

Lemma pres_auto_pair : preserves R (auto_pair P env).
Proof. unfold auto_pair. pose proof pres_requestPairingCode. preserve. Qed.

(** [initialize] stores a socket, and the handlers built on it keep
    whatever storing a socket keeps. *)
Hypothesis R_with_socket : forall s b, R b (with_socket s b).

Lemma pres_initialize : preserves R (initialize env).
Proof.
  unfold initialize. pose proof R_with_socket as Hs. unfold with_socket in Hs. preserve.
Qed.

Lemma pres_post_pair : preserves R (post_pair P env).
Proof.
  unfold post_pair. pose proof pres_initialize. pose proof pres_requestPairingCode.
  preserve.
Qed.

Lemma pres_post_start : preserves R (post_start env).
Proof. unfold post_start. pose proof pres_initialize. preserve. Qed.

Lemma pres_startApplication : preserves R (startApplication env).
Proof. unfold startApplication. pose proof pres_initialize. preserve. Qed.

(** The [connection.update] listener keeps what its three assignments
    keep. *)
Lemma pres_on_connection_update u :
  (forall b, R b (disconnected b)) ->
  (forall b, R b {| sock := sock b; isConnected := isConnected b;
                    reconnectAttempts := reconnectAttempts b + 1;
                    maxReconnectAttempts := maxReconnectAttempts b |}) ->
  (forall b, R b {| sock := sock b; isConnected := true; reconnectAttempts := 0;
                    maxReconnectAttempts := maxReconnectAttempts b |}) ->
  preserves R (on_connection_update P env u).
Proof.
  intros Hclose Hretry Hopen. unfold on_connection_update.
  pose proof pres_requestPairingCode. unfold disconnected in Hclose. preserve.
Qed.

End Preservation.

#[local] Instance same_counters_refl : Reflexive same_counters.
Proof. now intros b. Qed.

#[local] Instance same_counters_trans : Transitive same_counters.
Proof. intros a b c [H1 H2] [H3 H4]. split; congruence. Qed.

#[local] Instance socket_kept_refl : Reflexive socket_kept.
Proof. now intros b. Qed.

#[local] Instance socket_kept_trans : Transitive socket_kept.
Proof. intros a b c H1 H2 Ha. auto. Qed.

(** ** The reconnect counter *)

Section Counters.

Variable P : Platform.
Variable env : Env.

Lemma with_socket_counters s b : same_counters b (with_socket s b).
Proof. now split. Qed.

Lemma kept_requestPairingCode : preserves same_counters (requestPairingCode P env).
Proof. apply pres_requestPairingCode; typeclasses eauto. Qed.

Lemma open_counters u st :
  connection u = Some ConnOpen ->
  reconnectAttempts (bot (store_of (on_connection_update P env u st))) = 0
  /\ maxReconnectAttempts (bot (store_of (on_connection_update P env u st))) =
       maxReconnectAttempts (bot st).
Proof.
  intros Hconn. unfold on_connection_update. rewrite Hconn.
  set (st1 := {| bot := {| sock := sock (bot st); isConnected := true;
                           reconnectAttempts := 0;
                           maxReconnectAttempts := maxReconnectAttempts (bot st) |};
                 files := files st |}).
  pose proof (kept_requestPairingCode st1) as Hkept.
  destruct (truthy (qr u)); cbv [bind get_bot set_bot log emit ret defined throw];
    cbn [bot files sock];
    (destruct (sock (bot st)) as [s|]; [|cbn; split; reflexivity]);
    (destruct (registered env s); [cbn; split; reflexivity|]);
    cbn [negb];
    repeat match goal with
           | |- context [requestPairingCode P env ?x] =>
               lazymatch x with st1 => fail | _ => change x with st1 end
           end;
    unfold store_of in *;
    destruct (requestPairingCode P env st1) as [[r st2] t2]; cbn in *; exact Hkept.
Qed.

Lemma on_connection_update_counters u st :
  reconnectAttempts (bot (store_of (on_connection_update P env u st))) =
    next_attempts P u (bot st)
  /\ maxReconnectAttempts (bot (store_of (on_connection_update P env u st))) =
       maxReconnectAttempts (bot st).
Proof.
  unfold next_attempts. destruct (connection u) as [[| |]|] eqn:Hconn.
  - destruct (bool_decide (statusCode u = Some (loggedOut P))) eqn:Hcode.
    + apply bool_decide_eq_true_1 in Hcode.
      destruct (close_logged_out P env u st Hconn Hcode) as (-> & _).
      now rewrite requestPairingCode_keeps_bot.
    + apply bool_decide_eq_false_1 in Hcode.
      destruct (close_retry P env u st Hconn Hcode) as (Hlt & Hge & Hmax & _).
      split; [|exact Hmax].
      destruct (reconnectAttempts (bot st) <? maxReconnectAttempts (bot st)) eqn:E.
      * apply Z.ltb_lt in E. now destruct (Hlt E).
      * apply Z.ltb_ge in E. now destruct (Hge E).
  - now apply open_counters.
  - unfold on_connection_update. rewrite Hconn.
    destruct (truthy (qr u)); split; reflexivity.
  - unfold on_connection_update. rewrite Hconn.
    destruct (truthy (qr u)); split; reflexivity.
Qed.

End Counters.

Lemma run_op_counters P env op st :
  reconnectAttempts (bot (run_op P env op st).1) =
    match op with
    | OpConnectionUpdate u => next_attempts P u (bot st)
    | _ => reconnectAttempts (bot st)
    end
  /\ maxReconnectAttempts (bot (run_op P env op st).1) = maxReconnectAttempts (bot st).
Proof.
  destruct op; cbn [run_op forget fst].
  - apply (pres_startApplication env same_counters), with_socket_counters.
  - apply (pres_initialize env same_counters), with_socket_counters.
  - apply (pres_auto_pair P env same_counters).
  - apply on_connection_update_counters.
  - apply (pres_on_messages_upsert P env same_counters).
  - apply (pres_get_status P env same_counters).
  - apply (pres_post_pair P env same_counters), with_socket_counters.
  - apply (pres_post_start env same_counters), with_socket_counters.
  - apply (pres_post_send env same_counters).
Qed.

Lemma next_attempts_bounded P u b :
  maxReconnectAttempts b = 5 -> 0 <= reconnectAttempts b <= 5 ->
  0 <= next_attempts P u b <= 5.
Proof.
  intros Hmax Hra. unfold next_attempts.
  destruct (connection u) as [[| |]|]; try lia.
  destruct (bool_decide _); [lia|].
  destruct (reconnectAttempts b <? maxReconnectAttempts b) eqn:E; [|lia].
  apply Z.ltb_lt in E. lia.
Qed.

Lemma reachable_bounded P st :
  reachable P st ->
  maxReconnectAttempts (bot st) = 5 /\ 0 <= reconnectAttempts (bot st) <= 5.
Proof.
  induction 1 as [fs|st env op _ [Hmax Hra]]; [cbn; lia|].
  destruct (run_op_counters P env op st) as [Hnext Hmax'].
  rewrite Hmax', Hnext. split; [exact Hmax|].
  destruct op; try exact Hra. now apply next_attempts_bounded.
Qed.

(** X26. No operation clears the socket of the bot object: once
    [initialize] has stored one, the listeners and the routes find one. *)
Lemma socket_never_cleared P env op st :
  is_Some (sock (bot st)) -> is_Some (sock (bot (run_op P env op st).1)).
Proof.
  assert (Hs : forall s b, socket_kept b (with_socket s b)) by (intros s b _; now eexists).
  destruct op; cbn [run_op forget fst].
  - apply (pres_startApplication env socket_kept), Hs.
  - apply (pres_initialize env socket_kept), Hs.
  - apply (pres_auto_pair P env socket_kept).
  - apply (pres_on_connection_update P env socket_kept); intros b Hb; exact Hb.
  - apply (pres_on_messages_upsert P env socket_kept).
  - apply (pres_get_status P env socket_kept).
  - apply (pres_post_pair P env socket_kept), Hs.
  - apply (pres_post_start env socket_kept), Hs.
  - apply (pres_post_send env socket_kept).
Qed.

(** C9. In every store a run can reach, the counter lies between 0 and
    the maximum, which is 5.  It is 0 in a fresh bot; an operation leaves
    it as it was, or is a close event other than a logged-out one, met
    below the maximum, and adds one, or is an open event and sets it to 0;
    every open event sets it to 0; and no operation changes the
    maximum. *)
Theorem reconnect_counter_invariant (P : Platform) :
  (forall st, reachable P st ->
     0 <= reconnectAttempts (bot st) <= maxReconnectAttempts (bot st)
     /\ maxReconnectAttempts (bot st) = 5)
  /\ reconnectAttempts constructor = 0
  /\ (forall env op st,
        maxReconnectAttempts (bot (run_op P env op st).1) = maxReconnectAttempts (bot st)
        /\ (reconnectAttempts (bot (run_op P env op st).1) = reconnectAttempts (bot st)
            \/ (exists u, op = OpConnectionUpdate u
                  /\ connection u = Some ConnClose
                  /\ statusCode u <> Some (loggedOut P)
                  /\ reconnectAttempts (bot st) < maxReconnectAttempts (bot st)
                  /\ reconnectAttempts (bot (run_op P env op st).1) =
                       reconnectAttempts (bot st) + 1)
            \/ (exists u, op = OpConnectionUpdate u
                  /\ connection u = Some ConnOpen
                  /\ reconnectAttempts (bot (run_op P env op st).1) = 0)))
  /\ (forall env u st,
        connection u = Some ConnOpen ->
        reconnectAttempts (bot (run_op P env (OpConnectionUpdate u) st).1) = 0).
Proof.
  split; [|split; [reflexivity|split]].
  - intros st [Hmax Hra]%reachable_bounded. lia.
  - intros env op st. destruct (run_op_counters P env op st) as [Hnext Hmax].
    split; [exact Hmax|].
    destruct op; try (left; exact Hnext).
    unfold next_attempts in Hnext.
    destruct (connection u) as [[| |]|] eqn:Hconn; try (left; exact Hnext).
    + destruct (bool_decide (statusCode u = Some (loggedOut P))) eqn:Hcode;
        [left; exact Hnext|].
      apply bool_decide_eq_false_1 in Hcode.
      destruct (reconnectAttempts (bot st) <? maxReconnectAttempts (bot st)) eqn:E;
        [|left; exact Hnext].
      apply Z.ltb_lt in E. right; left. now exists u.
    + right; right. now exists u.
  - intros env u st Hconn.
    destruct (run_op_counters P env (OpConnectionUpdate u) st) as [Hnext _].
    rewrite Hnext. unfold next_attempts. now rewrite Hconn.
Qed.

(** * Further properties *)

(** ** Replies *)

Section Replies.

Variable P : Platform.
Variable env : Env.

Lemma or_default_nonempty (a : option jsstring) (d : jsstring) :
  d <> [] -> or_default a d <> [].
Proof. destruct a as [[|c s]|]; cbn; congruence. Qed.

Lemma fallback_reply_nonempty m : fallback_reply m <> [].
Proof.
  unfold fallback_reply.
  destruct (includes m (js "rate limit")); [discriminate|].
  destruct (includes m (js "invalid")); discriminate.
Qed.

Lemma reply_empty_nonempty : reply_empty <> [].
Proof. intros H. apply (f_equal length) in H. vm_compute in H. discriminate. Qed.

(** X1. [getAIResponse] calls the completion client exactly once, sends
    nothing and leaves the store alone; a reply it returns is never the
    empty string; and it throws only in one case, a failure whose value
    has no [message], where reading [message.includes] is a TypeError. *)
Theorem getAIResponse_answers (message context : jsstring) (st : Store) :
  store_of (getAIResponse env message context st) = st
  /\ completions (trace_of (getAIResponse env message context st)) =
       [completion_request message context]
  /\ sends (trace_of (getAIResponse env message context st)) = []
  /\ (forall r, result_of (getAIResponse env message context st) = Returned r -> r <> [])
  /\ (forall e, result_of (getAIResponse env message context st) = Raised e ->
        e = TypeError "includes"
        /\ exists e', completion env (completion_request message context) = Failed e'
                      /\ exn_message e' = None).
Proof.
  rewrite getAIResponse_run. unfold aiReply_of, store_of, trace_of, result_of. cbn.
  destruct (completion env _) as [c|e']; cbn.
  - do 3 (split; [reflexivity|]). split.
    + intros r [= <-]. apply or_default_nonempty, reply_empty_nonempty.
    + intros e H. discriminate.
  - destruct (exn_message e') as [m|] eqn:Hm; cbn; do 3 (split; [reflexivity|]); split.
    + intros r [= <-]. apply fallback_reply_nonempty.
    + intros e H. discriminate.
    + intros r H. discriminate.
    + intros e [= <-]. split; [reflexivity|]. now exists e'.
Qed.

Lemma trimStart_blank (s : jsstring) :
  Forall (fun c => isWhiteSpace c = true) s -> trimStart s = [].
Proof. induction 1 as [|c s Hc _ IH]; [reflexivity|]. cbn. now rewrite Hc. Qed.

Lemma trim_blank (s : jsstring) :
  Forall (fun c => isWhiteSpace c = true) s -> trim s = [].
Proof. intros H. unfold trim, trimEnd. now rewrite (trimStart_blank s H). Qed.

(** X2. An answer of the completion client that is missing, empty or
    white space only is replaced by "Sorry, I could not process that
    request.". *)
Theorem blank_answer_is_replaced (message context : jsstring) (st : Store)
    (content : option jsstring) :
  completion env (completion_request message context) = Completed content ->
  match content with
  | Some c => Forall (fun u => isWhiteSpace u = true) c
  | None => True
  end ->
  result_of (getAIResponse env message context st) = Returned reply_empty.
Proof.
  intros Hc Hblank. rewrite getAIResponse_run. unfold aiReply_of, result_of.
  rewrite Hc. cbn. destruct content as [c|]; [|reflexivity].
  cbn. now rewrite (trim_blank c Hblank).
Qed.

(** X3. The three apologies of [getAIResponse]: a failure message that
    contains "rate limit" gets the busy one, also when it contains
    "invalid" as well; one that contains "invalid" and not "rate limit"
    gets the check-up one; any other message gets the generic one. *)
Theorem failure_replies (message context : jsstring) (st : Store) (e : exn)
    (m : jsstring) :
  completion env (completion_request message context) = Failed e ->
  exn_message e = Some m ->
  (occurs (js "rate limit") m ->
     result_of (getAIResponse env message context st) = Returned reply_busy)
  /\ (~ occurs (js "rate limit") m -> occurs (js "invalid") m ->
       result_of (getAIResponse env message context st) = Returned reply_checkup)
  /\ (~ occurs (js "rate limit") m -> ~ occurs (js "invalid") m ->
       result_of (getAIResponse env message context st) = Returned reply_issues).
Proof.
  intros He Hm. rewrite getAIResponse_run. unfold aiReply_of, result_of, fallback_reply.
  rewrite He, Hm. cbn. repeat split.
  - intros H%includes_spec. now rewrite H.
  - intros H1%includes_false H2%includes_spec. now rewrite H1, H2.
  - intros H1%includes_false H2%includes_false. now rewrite H1, H2.
Qed.

(** X4. [handleMessage] is contained: whatever the message, the store and
    the answers of the collaborators, it returns normally and leaves the
    store as it was; it calls the completion client at most once and sends
    at most once, never sends without having called the client, and never
    asks for a pairing code or sets a timer. *)
Theorem handleMessage_contained (msg : WAMessage) (st : Store) :
  result_of (handleMessage P env msg st) = Returned tt
  /\ store_of (handleMessage P env msg st) = st
  /\ (length (completions (trace_of (handleMessage P env msg st))) <= 1)%nat
  /\ (length (sends (trace_of (handleMessage P env msg st)))
      <= length (completions (trace_of (handleMessage P env msg st))))%nat
  /\ pairings (trace_of (handleMessage P env msg st)) = []
  /\ timers (trace_of (handleMessage P env msg st)) = [].
Proof.
  unfold handleMessage.
  destruct (message msg) as [content|]; [|cbn; repeat split; reflexivity || lia].
  destruct (fromMe (key msg)); [cbn; repeat split; reflexivity || lia|].
  destruct (remoteJid (key msg)) as [from|];
    cbv [try_catch bind defined ret throw]; [|cbn; repeat split; reflexivity || lia].
  rewrite length_guard.
  destruct (length (extractText content) <? 2)%nat;
    [cbn; repeat split; reflexivity || lia|].
  destruct (triggered (lowerText P (extractText content)));
    [|cbn; repeat split; reflexivity || lia].
  cbn [negb log emit]. rewrite getAIResponse_run.
  unfold aiReply_of, get_bot, call_send, bind, emit, ret.
  destruct (completion env _) as [c|e]; cbn.
  - destruct (sock (bot st)) as [s|]; cbn; [|repeat split; reflexivity || lia].
    destruct (sendMessage env s from _); cbn; repeat split; reflexivity || lia.
  - destruct (exn_message e) as [m|]; cbn; [|repeat split; reflexivity || lia].
    destruct (sock (bot st)) as [s|]; cbn; [|repeat split; reflexivity || lia].
    destruct (sendMessage env s from _); cbn; repeat split; reflexivity || lia.
Qed.

(** X5. A triggering message whose completion call fails with a value
    that has no [message]: the client was called once, nothing is sent,
    the TypeError is logged by the handler and it returns normally. *)
Theorem messageless_failure_is_dropped (msg : WAMessage) (content : MessageContent)
    (from : jsstring) (st : Store) (e : exn) :
  triggering P msg content from ->
  completion env (request_of msg content from) = Failed e ->
  exn_message e = None ->
  sends (trace_of (handleMessage P env msg st)) = []
  /\ completions (trace_of (handleMessage P env msg st)) = [request_of msg content from]
  /\ Console (LogHandlingError (TypeError "includes"))
       ∈ trace_of (handleMessage P env msg st)
  /\ result_of (handleMessage P env msg st) = Returned tt.
Proof.
  intros (Hmsg & Hme & Hjid & Hlen & Htrig) He Hm.
  unfold handleMessage. rewrite Hmsg, Hme, Hjid.
  cbv [try_catch bind defined ret throw].
  rewrite length_guard. apply Nat.ltb_ge in Hlen. rewrite Hlen, Htrig.
  cbn [negb log emit]. rewrite getAIResponse_run.
  fold (isGroup_of from). fold (context_of msg from).
  unfold request_of in He. unfold aiReply_of. rewrite He, Hm. cbn.
  repeat split; try reflexivity. set_solver.
Qed.

(** X6. A triggering message while the bot holds no socket: the
    completion client is still called, once, and nothing is sent. *)
Theorem no_socket_no_send (msg : WAMessage) (content : MessageContent)
    (from : jsstring) (st : Store) :
  triggering P msg content from ->
  sock (bot st) = None ->
  completions (trace_of (handleMessage P env msg st)) = [request_of msg content from]
  /\ sends (trace_of (handleMessage P env msg st)) = [].
Proof.
  intros Htrig Hsock.
  destruct (handleMessage_replies P env msg content from st Htrig) as (_ & _ & Hc & Hs).
  split; [exact Hc|]. rewrite Hs, Hsock. now destruct (aiReply_of env _).
Qed.

Lemma trimStart_head (s : jsstring) c r :
  trimStart s = c :: r -> isWhiteSpace c = false.
Proof.
  induction s as [|d s IH]; cbn; [discriminate|].
  destruct (isWhiteSpace d) eqn:Hd; [exact IH|]. now intros [= <- _].
Qed.

Lemma trim_last (s a : jsstring) c : trim s = a ++ [c] -> isWhiteSpace c = false.
Proof.
  unfold trim, trimEnd. intros H. apply (f_equal (@rev N)) in H.
  rewrite rev_involutive, rev_app_distr in H. cbn in H.
  now apply trimStart_head in H.
Qed.

(** X7. The "ai " keyword and [trim]: the normalised text never ends in
    white space, so a text that triggers by "ai " alone has at least one
    more code unit after the space.  A message that ends in "ai", with or
    without spaces behind it, does not trigger by this keyword. *)
Theorem ai_keyword_needs_more_text (text : jsstring) :
  triggered (lowerText P text) = true ->
  ~ occurs (js "karl") (lowerText P text) ->
  ~ occurs (js "assistant") (lowerText P text) ->
  exists a c b, lowerText P text = a ++ js "ai " ++ c :: b.
Proof.
  rewrite triggered_simplified. unfold simplified_trigger.
  intros Htrig Hk%includes_false Ha%includes_false.
  rewrite Hk, Ha in Htrig. cbn in Htrig.
  apply includes_spec in Htrig as (a & b & Heq).
  destruct b as [|c b]; [|now exists a, c, b].
  exfalso. unfold lowerText in Heq.
  assert (Hlast : trim (toLowerCase P text) = (a ++ js "ai") ++ [32%N]).
  { rewrite Heq, app_nil_r, <- app_assoc. reflexivity. }
  apply trim_last in Hlast. discriminate.
Qed.

End Replies.

(** ** Connection events and what follows them *)

Section Lifecycle.

Variable P : Platform.
Variable env : Env.

(** The bot object after the [connection.update] listener: only
    [isConnected] and the counter can have changed. *)
Lemma connection_update_bot u st :
  bot (store_of (on_connection_update P env u st)) =
    match connection u with
    | Some ConnClose =>
        {| sock := sock (bot st); isConnected := false;
           reconnectAttempts := next_attempts P u (bot st);
           maxReconnectAttempts := maxReconnectAttempts (bot st) |}
    | Some ConnOpen =>
        {| sock := sock (bot st); isConnected := true; reconnectAttempts := 0;
           maxReconnectAttempts := maxReconnectAttempts (bot st) |}
    | _ => bot st
    end.
Proof.
  unfold next_attempts. destruct (connection u) as [[| |]|] eqn:Hconn.
  - destruct (bool_decide (statusCode u = Some (loggedOut P))) eqn:Hcode.
    + apply bool_decide_eq_true_1 in Hcode.
      destruct (close_logged_out P env u st Hconn Hcode) as (-> & _).
      now rewrite requestPairingCode_keeps_bot.
    + unfold on_connection_update. rewrite Hconn, Hcode.
      destruct (truthy (qr u)); cbv [bind get_bot set_bot log emit ret];
        cbn [bot files sock isConnected reconnectAttempts maxReconnectAttempts];
        destruct (reconnectAttempts (bot st) <? maxReconnectAttempts (bot st));
        reflexivity.
  - unfold on_connection_update. rewrite Hconn.
    set (st1 := {| bot := {| sock := sock (bot st); isConnected := true;
                             reconnectAttempts := 0;
                             maxReconnectAttempts := maxReconnectAttempts (bot st) |};
                   files := files st |}).
    pose proof (requestPairingCode_keeps_bot P env st1) as Hkept.
    destruct (truthy (qr u)); cbv [bind get_bot set_bot log emit ret defined throw];
      cbn [bot files sock];
      (destruct (sock (bot st)) as [s|]; [|reflexivity]);
      (destruct (registered env s); [reflexivity|]);
      cbn [negb];
      repeat match goal with
             | |- context [requestPairingCode P env ?x] =>
                 lazymatch x with st1 => fail | _ => change x with st1 end
             end;
      unfold store_of in *;
      destruct (requestPairingCode P env st1) as [[r st2] t2]; cbn in *; exact Hkept.
  - unfold on_connection_update. rewrite Hconn. now destruct (truthy (qr u)).
  - unfold on_connection_update. rewrite Hconn. now destruct (truthy (qr u)).
Qed.

(** X8. Sending follows the last connection event.  After a close event,
    whatever its status, [POST /send/:number] with a message answers 500
    "Bot not connected" and sends nothing; after an open event on a bot
    that holds socket [s], it sends through [s]. *)
Theorem send_follows_connection (u : ConnectionUpdate) (st : Store) (env' : Env)
    (number : jsstring) (c : N) (m : jsstring) :
  (connection u = Some ConnClose ->
     post_send env' number (Some (c :: m)) (store_of (on_connection_update P env u st)) =
       (Returned (status_json 500 (BodyFailure (Some (js "Bot not connected")))),
        store_of (on_connection_update P env u st), []))
  /\ (forall s, connection u = Some ConnOpen -> sock (bot st) = Some s ->
        trace_of (post_send env' number (Some (c :: m))
                    (store_of (on_connection_update P env u st))) =
          [TransportSend s (send_target number)
             {| out_text := c :: m; out_mentions := None |}]).
Proof.
  pose proof (connection_update_bot u st) as Hbot. split.
  - intros Hconn. rewrite Hconn in Hbot. apply post_send_disconnected.
    left. now rewrite Hbot.
  - intros s Hconn Hsock. rewrite Hconn in Hbot.
    apply post_send_connected; rewrite Hbot; [reflexivity | exact Hsock].
Qed.

(** X9. The back-off starts again after an open event: whatever the
    counter was, the next close event that is not a logged-out one
    schedules the reconnection after 5000 ms. *)
Theorem backoff_restarts_after_open (u1 u2 : ConnectionUpdate) (env2 : Env)
    (st : Store) :
  connection u1 = Some ConnOpen ->
  connection u2 = Some ConnClose ->
  statusCode u2 <> Some (loggedOut P) ->
  0 < maxReconnectAttempts (bot st) ->
  timers (trace_of (on_connection_update P env2 u2
                      (store_of (on_connection_update P env u1 st)))) =
    [(RetryInitialize, 5000)].
Proof.
  intros Hopen Hclose Hcode Hmax.
  pose proof (connection_update_bot u1 st) as Hbot. rewrite Hopen in Hbot.
  destruct (close_retry P env2 u2 (store_of (on_connection_update P env u1 st))
              Hclose Hcode) as (Hlt & _).
  rewrite Hbot in Hlt. cbn in Hlt. now destruct (Hlt Hmax).
Qed.

Lemma initialize_run st :
  initialize env st =
    match makeSocket env with
    | SocketMade s =>
        (Returned s, {| bot := with_socket s (bot st); files := files st |},
         [Console LogInitializing; SocketCreated s; Console LogSocketInitialized])
    | SocketFailed e =>
        (Raised e, st, [Console LogInitializing; Console (LogInitFailed e)])
    end.
Proof.
  unfold initialize. cbv [try_catch bind log emit set_bot ret throw].
  now destruct (makeSocket env).
Qed.

(** X10. [initialize] has no guard: on a bot that is connected through
    one socket it stores the new socket and leaves [isConnected] true, so
    the next [POST /send/:number] goes through the new socket, before any
    open event of it. *)
Theorem sends_follow_latest_socket (st : Store) (s : SocketId) (env' : Env)
    (number : jsstring) (c : N) (m : jsstring) :
  makeSocket env = SocketMade s ->
  isConnected (bot st) = true ->
  sock (bot (store_of (initialize env st))) = Some s
  /\ trace_of (post_send env' number (Some (c :: m)) (store_of (initialize env st))) =
       [TransportSend s (send_target number)
          {| out_text := c :: m; out_mentions := None |}].
Proof.
  intros Hmake Hconn. rewrite initialize_run, Hmake. split; [reflexivity|].
  now apply post_send_connected.
Qed.

(** X11. [startApplication] never throws.  When the socket is made it
    sets the ten-second timer, and if that timer fires while the bot is
    still not connected, one pairing code is asked of the new socket; when
    the socket cannot be made it sets no timer at all and leaves the store
    as it was, so nothing will try again. *)
Theorem startApplication_outcome (st : Store) :
  result_of (startApplication env st) = Returned tt
  /\ (forall s, makeSocket env = SocketMade s ->
        timers (trace_of (startApplication env st)) = [(AutoPair, 10000)]
        /\ (forall env', isConnected (bot st) = false ->
              pairings (trace_of (auto_pair P env' (store_of (startApplication env st)))) =
                [(s, stripNonDigits (PHONE_NUMBER P))]))
  /\ (forall e, makeSocket env = SocketFailed e ->
        timers (trace_of (startApplication env st)) = []
        /\ store_of (startApplication env st) = st).
Proof.
  unfold startApplication, try_catch, bind. rewrite initialize_run.
  destruct (makeSocket env) as [s|e]; cbn.
  - split; [reflexivity|]. split; [|intros e H; discriminate].
    intros s' [= <-]. split; [reflexivity|]. intros env' Hconn.
    unfold auto_pair. cbv [bind get_bot]. cbn [bot isConnected with_socket].
    rewrite Hconn. cbn [negb log emit].
    set (st1 := {| bot := with_socket s (bot st); files := files st |}).
    destruct (requestPairingCode_with_socket P env' st1 s eq_refl) as (Hp & _).
    unfold trace_of in *. destruct (requestPairingCode P env' st1) as [[r st2] t2].
    cbn in *. exact Hp.
  - split; [reflexivity|]. split; [intros s H; discriminate|].
    intros e' _. split; reflexivity.
Qed.

Lemma requestPairingCode_refused st s e m :
  sock (bot st) = Some s ->
  pairingCode env s (stripNonDigits (PHONE_NUMBER P)) = PairingFailed e ->
  exn_message e = Some m ->
  requestPairingCode P env st =
    (Returned tt, st,
     [PairingRequest s (stripNonDigits (PHONE_NUMBER P));
      Console (LogPairingError (Some m));
      Console (if includes m (js "already paired") || includes m (js "authenticated")
               then LogAlreadyPaired else LogTryManual)]).
Proof.
  intros Hsock Hfail Hm. unfold requestPairingCode.
  cbv [try_catch bind get_bot log emit call_pairing write_file defined ret throw].
  rewrite Hsock, Hfail. cbn. rewrite Hm. cbn.
  now destruct (includes m (js "already paired") || includes m (js "authenticated")).
Qed.

(** X12. A pairing request that fails with a message leaves the bot and
    [pairing_log.json] as they were and does not propagate: the call
    returns after logging, as "already paired" when the message contains
    "already paired" or "authenticated".  A failure without a message
    escapes the handler as a TypeError. *)
Theorem failed_pairing_changes_nothing (st : Store) (s : SocketId) (e : exn) :
  sock (bot st) = Some s ->
  pairingCode env s (stripNonDigits (PHONE_NUMBER P)) = PairingFailed e ->
  store_of (requestPairingCode P env st) = st
  /\ (forall m, exn_message e = Some m ->
        requestPairingCode P env st =
          (Returned tt, st,
           [PairingRequest s (stripNonDigits (PHONE_NUMBER P));
            Console (LogPairingError (Some m));
            Console (if includes m (js "already paired") || includes m (js "authenticated")
                     then LogAlreadyPaired else LogTryManual)]))
  /\ (exn_message e = None ->
        result_of (requestPairingCode P env st) = Raised (TypeError "includes")).
Proof.
  intros Hsock Hfail. unfold requestPairingCode.
  cbv [try_catch bind get_bot log emit call_pairing write_file defined ret throw].
  rewrite Hsock, Hfail. cbn.
  destruct (exn_message e) as [m|]; cbn.
  - destruct (includes m (js "already paired") || includes m (js "authenticated")) eqn:E;
      cbn; (split; [reflexivity|]); (split; [|discriminate]);
      intros m' [= <-]; rewrite E; reflexivity.
  - split; [reflexivity|]. split; [discriminate|reflexivity].
Qed.

(** X13. [POST /pair] answers by the socket alone.  When the socket is
    made and the pairing request fails with a message, the route still
    answers 200 with the code of whatever record [pairing_log.json] held
    before, or "Check logs for code" when it held none; when the request
    and the write succeed it answers with the new code; when the socket
    cannot be made it answers 500 and asks for no code. *)
Theorem pair_route (st : Store) :
  (forall s e m,
     makeSocket env = SocketMade s ->
     pairingCode env s (stripNonDigits (PHONE_NUMBER P)) = PairingFailed e ->
     exn_message e = Some m ->
     result_of (post_pair P env st) =
       Returned (json (BodyPaired (PHONE_NUMBER P)
                         (or_default (pr_code <$> files st !! pairing_log)
                            (js "Check logs for code")))))
  /\ (forall s code,
        makeSocket env = SocketMade s ->
        pairingCode env s (stripNonDigits (PHONE_NUMBER P)) = PairingCode code ->
        writeFileSync env pairing_log = None ->
        result_of (post_pair P env st) =
          Returned (json (BodyPaired (PHONE_NUMBER P)
                            (or_default (Some code) (js "Check logs for code")))))
  /\ (forall e,
        makeSocket env = SocketFailed e ->
        result_of (post_pair P env st) =
          Returned (status_json 500 (BodyPairFailure (exn_message e)))
        /\ pairings (trace_of (post_pair P env st)) = []).
Proof.
  split; [|split].
  - unfold post_pair, try_catch. unfold bind at 1. rewrite initialize_run.
    intros s e m Hmake Hfail Hm. rewrite Hmake.
    set (st1 := {| bot := with_socket s (bot st); files := files st |}).
    pose proof (requestPairingCode_refused st1 s e m eq_refl Hfail Hm) as Hrun.
    unfold bind. rewrite Hrun. reflexivity.
  - unfold post_pair, try_catch. unfold bind at 1. rewrite initialize_run.
    intros s code Hmake Hcode Hwrite. rewrite Hmake.
    set (st1 := {| bot := with_socket s (bot st); files := files st |}).
    destruct (requestPairingCode_with_socket P env st1 s eq_refl)
      as (_ & _ & _ & _ & Hf).
    rewrite Hcode, Hwrite in Hf.
    assert (Hres : result_of (requestPairingCode P env st1) = Returned tt).
    { unfold requestPairingCode.
      cbv [try_catch bind get_bot log emit call_pairing write_file defined ret throw].
      cbn [st1 bot sock with_socket]. rewrite Hcode. cbn. now rewrite Hwrite. }
    unfold bind, get_files, result_of, store_of in *.
    destruct (requestPairingCode P env st1) as [[r st2] t2]. cbn in *. subst r.
    cbn. rewrite Hf, lookup_insert_eq. reflexivity.
  - intros e Hmake. unfold post_pair, try_catch, bind.
    rewrite initialize_run, Hmake. split; reflexivity.
Qed.

(** X24. An open event on a bot that holds socket [s]: a pairing code is
    asked of [s], once, exactly when the session is not registered yet;
    for a registered session the listener asks for nothing. *)
Theorem open_pairs_when_unregistered (u : ConnectionUpdate) (st : Store)
    (s : SocketId) :
  connection u = Some ConnOpen ->
  sock (bot st) = Some s ->
  pairings (trace_of (on_connection_update P env u st)) =
    (if registered env s then [] else [(s, stripNonDigits (PHONE_NUMBER P))])
  /\ timers (trace_of (on_connection_update P env u st)) = [].
Proof.
  intros Hconn Hsock. unfold on_connection_update. rewrite Hconn.
  set (st1 := {| bot := {| sock := Some s; isConnected := true;
                           reconnectAttempts := 0;
                           maxReconnectAttempts := maxReconnectAttempts (bot st) |};
                 files := files st |}).
  destruct (requestPairingCode_with_socket P env st1 s eq_refl) as (Hp & Ht & _).
  destruct (truthy (qr u)); cbv [bind get_bot set_bot log emit ret defined throw];
    cbn [bot files sock]; rewrite Hsock;
    (destruct (registered env s); [split; reflexivity|]);
    cbn [negb];
    repeat match goal with
           | |- context [requestPairingCode P env ?x] =>
               lazymatch x with st1 => fail | _ => change x with st1 end
           end;
    unfold trace_of in *;
    destruct (requestPairingCode P env st1) as [[r st2] t2]; cbn in *;
    now rewrite Hp, Ht.
Qed.

(** X25. A logged-out close on a bot that holds socket [s], when the
    pairing code arrives and the write succeeds: the bot is marked
    disconnected and [pairing_log.json] holds the record of the new
    code. *)
Theorem logged_out_close_stores_record (u : ConnectionUpdate) (st : Store)
    (s : SocketId) (code : jsstring) :
  connection u = Some ConnClose ->
  statusCode u = Some (loggedOut P) ->
  sock (bot st) = Some s ->
  pairingCode env s (stripNonDigits (PHONE_NUMBER P)) = PairingCode code ->
  writeFileSync env pairing_log = None ->
  isConnected (bot (store_of (on_connection_update P env u st))) = false
  /\ files (store_of (on_connection_update P env u st)) !! pairing_log =
       Some (pairing_record P env code).
Proof.
  intros Hconn Hcode Hsock Hpair Hwrite.
  destruct (close_logged_out P env u st Hconn Hcode) as (-> & _).
  destruct (requestPairingCode_with_socket P env
              {| bot := disconnected (bot st); files := files st |} s Hsock)
    as (_ & _ & _ & Hb & Hf).
  rewrite Hb, Hf, Hpair, Hwrite. split; [reflexivity | apply lookup_insert_eq].
Qed.

(** X14. For every state of the bot that a run can reach and every
    number of close events in a row that are not logged-out ones: at most
    5 reconnections are scheduled, each after at least 5000 ms and at
    most 25000 ms. *)
Theorem retry_delays_bounded (code : option Z) (k : nat) (st : Store) :
  reachable P st ->
  code <> Some (loggedOut P) ->
  (length (closes P env code k st).2 <= 5)%nat
  /\ Forall (fun d => 5000 <= d <= 25000) (closes P env code k st).2.
Proof.
  intros [Hmax Hra]%reachable_bounded Hcode.
  rewrite (closes_delays P env code k st Hcode Hmax Hra). split.
  - rewrite length_fmap, length_seqZ. lia.
  - apply Forall_fmap, Forall_forall. intros d Hd%elem_of_seqZ. cbn. lia.
Qed.

End Lifecycle.

(** ** The send route, again *)

Section SendRouteFacts.

Variable env : Env.

(** X15. [POST /send/:number] always answers: it never throws, leaves the
    store as it was, sends at most once, and its status is 200, 400 or
    500; 400 exactly when the message is missing or empty, and 200 only
    when one send was made and the transport resolved it with a
    message. *)
Theorem send_route_answers (number : jsstring) (message : option jsstring)
    (st : Store) :
  exists r,
    result_of (post_send env number message st) = Returned r
    /\ (status r = 200 \/ status r = 400 \/ status r = 500)
    /\ store_of (post_send env number message st) = st
    /\ (length (sends (trace_of (post_send env number message st))) <= 1)%nat
    /\ (status r = 400 <-> truthy message = false)
    /\ (status r = 200 ->
          exists s m id,
            message = Some m
            /\ sendMessage env s (send_target number)
                 {| out_text := m; out_mentions := None |} = Sent (Some id)
            /\ sends (trace_of (post_send env number message st)) =
                 [(s, send_target number, {| out_text := m; out_mentions := None |})]).
Proof.
  destruct message as [[|c m]|].
  - rewrite post_send_rejects by reflexivity. eexists. cbn.
    repeat split; auto; try lia; discriminate.
  - destruct (isConnected (bot st)) eqn:Hconn; [destruct (sock (bot st)) as [s|] eqn:Hsock|].
    + destruct (post_send_connected env number c m s st Hconn Hsock) as (Ht & Hs & Hr).
      rewrite Hr, Hs, Ht. eexists. split; [reflexivity|].
      destruct (sendMessage env s _ _) as [[id|]|e] eqn:Hsend; cbn;
        repeat split; auto; try lia; try discriminate.
      intros _. now exists s, (c :: m), id.
    + rewrite post_send_disconnected by now right. eexists. cbn.
      repeat split; auto; try lia; discriminate.
    + rewrite post_send_disconnected by now left. eexists. cbn.
      repeat split; auto; try lia; discriminate.
  - rewrite post_send_rejects by reflexivity. eexists. cbn.
    repeat split; auto; try lia; discriminate.
Qed.

Lemma stripNonDigits_none (s : jsstring) :
  Forall (fun c => isDigit c = false) s -> stripNonDigits s = [].
Proof.
  unfold stripNonDigits. induction 1 as [|c s Hc _ IH]; [reflexivity|].
  rewrite filter_cons. destruct (decide (isDigit c = true)); [congruence|exact IH].
Qed.

(** X16. The route reads the digits of [:number] and nothing else: two
    numbers with the same digits get the same answer and the same send;
    cleaning a number twice changes nothing; and a number without any
    digit is not refused, its target is the bare "@s.whatsapp.net". *)
Theorem send_target_reads_digits_only (n1 n2 : jsstring) :
  (stripNonDigits n1 = stripNonDigits n2 ->
     forall message st, post_send env n1 message st = post_send env n2 message st)
  /\ send_target (stripNonDigits n1) = send_target n1
  /\ (Forall (fun c => isDigit c = false) n1 ->
        send_target n1 = js "@s.whatsapp.net"
        /\ forall s c m st,
             isConnected (bot st) = true -> sock (bot st) = Some s ->
             trace_of (post_send env n1 (Some (c :: m)) st) =
               [TransportSend s (js "@s.whatsapp.net")
                  {| out_text := c :: m; out_mentions := None |}]).
Proof.
  split; [|split].
  - intros Heq message st. unfold post_send. now rewrite Heq.
  - unfold send_target. now rewrite (stripNonDigits_id _ (stripNonDigits_digits n1)).
  - intros Hnone.
    assert (Ht : send_target n1 = js "@s.whatsapp.net")
      by (unfold send_target; now rewrite (stripNonDigits_none n1 Hnone)).
    split; [exact Ht|]. intros s c m st Hconn Hsock.
    destruct (post_send_connected env n1 c m s st Hconn Hsock) as (Htr & _).
    now rewrite Htr, Ht.
Qed.

End SendRouteFacts.

(** ** The script [index.js], again *)

Section ScriptFacts.

Variable P : Platform.
Variable env : Env.

Lemma script_getAIResponse_run message st :
  IndexJs.getAIResponse env message st =
    (Returned
       match completion env
               {| req_model := js "deepseek-chat"; req_system := IndexJs.system_message;
                  req_user := message; req_max_tokens := 150 |} with
       | Completed c => or_default c (js "Sorry, I could not process that.")
       | Failed _ => js "Sorry, AI is having issues. Try again!"
       end,
     st,
     CompletionCall {| req_model := js "deepseek-chat";
                       req_system := IndexJs.system_message;
                       req_user := message; req_max_tokens := 150 |}
     :: match completion env
                {| req_model := js "deepseek-chat"; req_system := IndexJs.system_message;
                   req_user := message; req_max_tokens := 150 |} with
        | Completed _ => []
        | Failed e => [Console (LogAIError (exn_message e))]
        end).
Proof.
  unfold IndexJs.getAIResponse. cbv [try_catch bind call_completion emit log ret throw].
  now destruct (completion env _).
Qed.

Lemma script_reply_nonempty (o : CompletionOutcome) :
  match o with
  | Completed c => or_default c (js "Sorry, I could not process that.")
  | Failed _ => js "Sorry, AI is having issues. Try again!"
  end <> [].
Proof.
  destruct o as [c|e].
  - apply or_default_nonempty. intros H. apply (f_equal length) in H.
    vm_compute in H. discriminate.
  - intros H. apply (f_equal length) in H. vm_compute in H. discriminate.
Qed.

(** X17. The [getAIResponse] of [index.js] never throws, whatever the
    failure, also one without a [message]: it calls the client once and
    returns a reply that is not empty; an answer that is not empty is
    returned as it is, white space included. *)
Theorem script_getAIResponse_answers (message : jsstring) (st : Store) :
  exists r,
    result_of (IndexJs.getAIResponse env message st) = Returned r
    /\ r <> []
    /\ store_of (IndexJs.getAIResponse env message st) = st
    /\ length (completions (trace_of (IndexJs.getAIResponse env message st))) = 1%nat
    /\ (forall c u,
          completion env {| req_model := js "deepseek-chat";
                            req_system := IndexJs.system_message;
                            req_user := message; req_max_tokens := 150 |}
            = Completed (Some (c :: u)) -> r = c :: u).
Proof.
  rewrite script_getAIResponse_run. eexists. split; [reflexivity|].
  unfold store_of, trace_of. cbn.
  split; [apply script_reply_nonempty|].
  destruct (completion env _) as [c|e]; cbn.
  - do 2 (split; [reflexivity|]). intros c' u [= ->]. reflexivity.
  - do 2 (split; [reflexivity|]). intros c' u H. discriminate.
Qed.

(** What the [messages.upsert] listener of [index.js] does, case by
    case. *)
Lemma script_listener_run s messages st :
  store_of (IndexJs.on_messages_upsert P env s messages st) = st
  /\ pairings (trace_of (IndexJs.on_messages_upsert P env s messages st)) = []
  /\ timers (trace_of (IndexJs.on_messages_upsert P env s messages st)) = []
  /\ (length (sends (trace_of (IndexJs.on_messages_upsert P env s messages st))) <= 1)%nat
  /\ (forall s' to m,
        (s', to, m) ∈ sends (trace_of (IndexJs.on_messages_upsert P env s messages st)) ->
        s' = s
        /\ (exists msg, head messages = Some msg /\ remoteJid (key msg) = Some to)
        /\ out_mentions m = None
        /\ exists reply, reply <> [] /\ out_text m = BOT_NAME ++ js ": " ++ reply).
Proof.
  unfold IndexJs.on_messages_upsert. cbv [bind defined ret throw].
  assert (Hnone : forall (A : Type) (r : outcome A) (t : list Event),
            sends t = [] -> pairings t = [] -> timers t = [] ->
            store_of (r, st, t) = st
            /\ pairings (trace_of (r, st, t)) = []
            /\ timers (trace_of (r, st, t)) = []
            /\ (length (sends (trace_of (r, st, t))) <= 1)%nat
            /\ (forall s' to m,
                  (s', to, m) ∈ sends (trace_of (r, st, t)) ->
                  s' = s
                  /\ (exists msg, head messages = Some msg /\ remoteJid (key msg) = Some to)
                  /\ out_mentions m = None
                  /\ exists reply, reply <> [] /\ out_text m = BOT_NAME ++ js ": " ++ reply)).
  { intros A r t Hs Hp Ht. unfold store_of, trace_of. cbn [fst snd].
    rewrite Hs, Hp, Ht.
    do 3 (split; [reflexivity|]). split; [cbn; lia|].
    intros s' to m Hin. now apply elem_of_nil in Hin. }
  destruct messages as [|msg rest]; cbn [head]; [now apply Hnone|].
  destruct (message msg) as [content|]; [|now apply Hnone].
  destruct (fromMe (key msg)); [now apply Hnone|].
  destruct (remoteJid (key msg)) as [from|] eqn:Hjid; [|now apply Hnone].
  destruct (IndexJs.trigger P (IndexJs.extractText content)); [|now apply Hnone].
  clear Hnone. cbn [log emit].
  rewrite script_getAIResponse_run. unfold call_send, bind, emit, ret.
  destruct (completion env _) as [c|e];
    [pose proof (script_reply_nonempty (Completed c)) as Hne
    |pose proof (script_reply_nonempty (Failed e)) as Hne];
    cbn in Hne; destruct (sendMessage env s from _); cbn;
    (do 3 (split; [reflexivity|])); (split; [lia|]);
    intros s' to m Hin; apply list_elem_of_singleton in Hin;
    injection Hin as -> -> ->;
    (split; [reflexivity|]); (split; [now exists msg|]); (split; [reflexivity|]);
    (eexists; split; [exact Hne | reflexivity]).
Qed.

(** X18. Whatever reaches the two listeners of [index.js], no pairing
    code is asked for, no timer is set and nothing is stored: pairing is
    left to the helper the script never calls. *)
Theorem script_never_pairs (s : SocketId) (messages : list WAMessage)
    (u : ConnectionUpdate) (st : Store) :
  (pairings (trace_of (IndexJs.on_messages_upsert P env s messages st)) = []
   /\ timers (trace_of (IndexJs.on_messages_upsert P env s messages st)) = []
   /\ store_of (IndexJs.on_messages_upsert P env s messages st) = st)
  /\ (pairings (trace_of (IndexJs.on_connection_update P u st)) = []
      /\ timers (trace_of (IndexJs.on_connection_update P u st)) = []
      /\ store_of (IndexJs.on_connection_update P u st) = st).
Proof.
  split.
  - now destruct (script_listener_run s messages st) as (Hs & Hp & Ht & _).
  - unfold IndexJs.on_connection_update. cbv [bind log emit ret].
    destruct (connection u) as [[| |]|]; cbn; try (repeat split; reflexivity).
    destruct (bool_decide _); cbn; repeat split; reflexivity.
Qed.

(** X19. A reply of the [index.js] listener: at most one per batch, sent
    through the listener's socket to the chat of the first message, with
    the bot name, a colon and a reply that is not empty, and never with a
    mention, group or not. *)
Theorem script_reply_shape (s : SocketId) (messages : list WAMessage) (st : Store) :
  (length (sends (trace_of (IndexJs.on_messages_upsert P env s messages st))) <= 1)%nat
  /\ (forall s' to m,
        (s', to, m) ∈ sends (trace_of (IndexJs.on_messages_upsert P env s messages st)) ->
        s' = s
        /\ (exists msg, head messages = Some msg /\ remoteJid (key msg) = Some to)
        /\ out_mentions m = None
        /\ exists reply, reply <> [] /\ out_text m = BOT_NAME ++ js ": " ++ reply).
Proof. now destruct (script_listener_run s messages st) as (_ & _ & _ & Hl & Hs). Qed.

(** X20. [index.js] reconnects on every close event that is not a
    logged-out one, at once and without a limit: [startBot] is called
    exactly for those events. *)
Theorem script_reconnects_unbounded (u : ConnectionUpdate) (st : Store) :
  StartBot ∈ trace_of (IndexJs.on_connection_update P u st)
  <-> connection u = Some ConnClose /\ statusCode u <> Some (loggedOut P).
Proof.
  unfold IndexJs.on_connection_update. cbv [bind log emit ret].
  destruct (connection u) as [[| |]|]; cbn.
  - destruct (bool_decide (statusCode u = Some (loggedOut P))) eqn:Hcode; cbn.
    + apply bool_decide_eq_true_1 in Hcode. split.
      * intros Hin%list_elem_of_singleton. discriminate.
      * now intros [_ Hne].
    + apply bool_decide_eq_false_1 in Hcode. split; [now intros _|].
      intros _. repeat constructor.
  - split; [intros Hin%list_elem_of_singleton; discriminate|].
    intros [Hc _]; discriminate.
  - split; [intros Hin%elem_of_nil; contradiction|]. intros [Hc _]; discriminate.
  - split; [intros Hin%elem_of_nil; contradiction|]. intros [Hc _]; discriminate.
Qed.

(** X21. A message that has only a caption is not answered by
    [index.js], whatever the caption says: the script reads the plain body
    and the extended text only. *)
Theorem script_ignores_captions (s : SocketId) (msg : WAMessage)
    (content : MessageContent) (rest : list WAMessage) (st : Store) :
  short_stays_nameless P ->
  message msg = Some content ->
  truthy (conversation content) = false ->
  truthy (extendedTextMessage content ≫= text) = false ->
  quiet (trace_of (IndexJs.on_messages_upsert P env s (msg :: rest) st)).
Proof.
  intros Hshort Hmsg Hconv Hext.
  assert (Htext : IndexJs.extractText content = []).
  { unfold IndexJs.extractText, or_else. rewrite Hconv.
    destruct (extendedTextMessage content ≫= text) as [[|c t]|];
      [reflexivity|discriminate|reflexivity]. }
  assert (Htrig : IndexJs.trigger P (IndexJs.extractText content) = false).
  { rewrite Htext. apply script_trigger_short; [exact Hshort|cbn; lia]. }
  unfold IndexJs.on_messages_upsert. cbv [head bind defined ret throw].
  rewrite Hmsg. destruct (fromMe (key msg)); [split; reflexivity|].
  destruct (remoteJid (key msg)); [rewrite Htrig|]; split; reflexivity.
Qed.

(** X22. For a phone number written as "+" and digits, as the default
    is, the two scripts ask for a pairing code with the same string, the
    digits. *)
Theorem plus_phone_agree (d : jsstring) (s : SocketId) (st st' : Store) :
  PHONE_NUMBER P = 43%N :: d ->
  Forall (fun c => isDigit c = true) d ->
  sock (bot st) = Some s ->
  pairings (trace_of (requestPairingCode P env st)) = [(s, d)]
  /\ pairings (trace_of (IndexJs.generatePairing P env s st')) = [(s, d)].
Proof.
  intros Hphone Hd Hsock.
  destruct (requestPairingCode_with_socket P env st s Hsock) as (Hp & _).
  destruct (script_generatePairing P env s st') as (Hg & _).
  rewrite Hp, Hg. unfold IndexJs.PHONE_NUMBER. fold (PHONE_NUMBER P). rewrite Hphone.
  split.
  - unfold stripNonDigits. rewrite filter_cons.
    destruct (decide (isDigit 43 = true)) as [H|_]; [discriminate|].
    fold (stripNonDigits d). now rewrite stripNonDigits_id.
  - destruct d; reflexivity.
Qed.

End ScriptFacts.

(** ** Log previews *)

(** X23. The previews the handlers log are bounded: a text of up to [n]
    code units is logged whole, a longer one as its first [n] code units
    and three dots. *)
Theorem preview_bounded (n : nat) (s : jsstring) :
  (length (preview n s) <= n + 3)%nat
  /\ ((length s <= n)%nat -> preview n s = s)
  /\ ((n < length s)%nat -> preview n s = take n s ++ js "...").
Proof.
  unfold preview. destruct (n <? length s)%nat eqn:E.
  - apply Nat.ltb_lt in E. repeat split.
    + rewrite length_app, length_take. change (length (js "...")) with 3%nat. lia.
    + intros H. lia.
  - apply Nat.ltb_ge in E. rewrite app_nil_r, take_ge by lia. repeat split.
    + lia.
    + intros H. lia.
Qed.
(** * Concrete runs *)

(** The model run on the ASCII platform. *)

Lemma ascii_short_stays_nameless : short_stays_nameless ascii_platform.
Proof.
  intros t Hlen Hocc%occurs_length. cbn in Hocc.
  unfold asciiLowerCase in Hocc. rewrite length_map in Hocc.
  change (length (js "karl")) with 4%nat in Hocc. lia.
Qed.

Example trigger_runs :
  triggered (lowerText ascii_platform (js "Hey KARL, hi")) = true
  /\ triggered (lowerText ascii_platform (js "  @Karl what's up ")) = true
  /\ triggered (lowerText ascii_platform (js "karl, are you there")) = true
  /\ triggered (lowerText ascii_platform (js "my Assistant")) = true
  /\ triggered (lowerText ascii_platform (js "an AI bot")) = true
  /\ triggered (lowerText ascii_platform (js "an AI ")) = false
  /\ triggered (lowerText ascii_platform (js "hello there")) = false
  /\ IndexJs.trigger ascii_platform (js "my Assistant") = false.
Proof. repeat split; reflexivity. Qed.

Lemma trigger_on_keywords_witness :
  (triggered (lowerText ascii_platform (js "Hey KARL, hi")) = true
   /\ IndexJs.trigger ascii_platform (js "Hey KARL, hi") = true)
  /\ triggered (lowerText ascii_platform (js "hello there")) = false
  /\ IndexJs.trigger ascii_platform (js "hello there") = false.
Proof.
  split; [|split].
  - apply (proj1 (trigger_on_keywords ascii_platform (js "Hey KARL, hi"))).
    exists (js "hey "), (js ", hi"). reflexivity.
  - apply (proj1 (proj2 (trigger_on_keywords ascii_platform (js "hello there")))).
    apply keyword_free_check. reflexivity.
  - apply (proj2 (proj2 (trigger_on_keywords ascii_platform (js "hello there"))));
      apply keyword_free_check; reflexivity.
Defined.

Lemma trigger_refines_simplified_witness :
  includes (lowerText ascii_platform (js "@Karl hi")) (js "karl") = true.
Proof.
  apply (proj1 (proj2 (trigger_refines_simplified ascii_platform (js "@Karl hi")))).
  reflexivity.
Defined.

Lemma ignored_message_witness :
  trace_of (handleMessage ascii_platform (answering (js "hello"))
              (text_message direct_chat (js "k") None) (connected_store 7%N)) = []
  /\ quiet (trace_of (IndexJs.on_messages_upsert ascii_platform (answering (js "hello")) 7%N
                        [text_message direct_chat (js "k") None] (connected_store 7%N))).
Proof.
  assert (Hign : ignorable (text_message direct_chat (js "k") None))
    by (right; vm_compute; lia).
  destruct (ignored_message_is_no_op ascii_platform (answering (js "hello"))
              (text_message direct_chat (js "k") None) (connected_store 7%N) Hign)
    as [(_ & _ & _ & Hempty) Hscript].
  split.
  - apply Hempty. eexists. reflexivity.
  - apply (Hscript ascii_short_stays_nameless 7%N []).
Defined.

Lemma karl_hi_triggers :
  triggering ascii_platform (text_message direct_chat (js "karl hi") None)
    {| conversation := Some (js "karl hi"); extendedTextMessage := None;
       imageMessage := None; videoMessage := None |} direct_chat.
Proof. repeat split; try reflexivity. vm_compute. lia. Qed.

Lemma rate_limit_witness :
  sends (trace_of (handleMessage ascii_platform
                     (failing_completion (js "429 rate limit exceeded"))
                     (text_message direct_chat (js "karl hi") None)
                     (connected_store 7%N))) =
    [(7%N, direct_chat,
      {| out_text := BOT_NAME ++ js ": " ++ reply_busy; out_mentions := None |})].
Proof.
  apply (rate_limit_is_answered ascii_platform
           (failing_completion (js "429 rate limit exceeded"))
           (text_message direct_chat (js "karl hi") None) _ direct_chat
           (connected_store 7%N) 7%N (Thrown (Some (js "429 rate limit exceeded")))
           (js "429 rate limit exceeded") karl_hi_triggers eq_refl eq_refl eq_refl).
  exists (js "429 "), (js " exceeded"). reflexivity.
Defined.

Lemma group_karl_triggers :
  triggering ascii_platform (text_message group_chat (js "Karl hi") (Some sender))
    {| conversation := Some (js "Karl hi"); extendedTextMessage := None;
       imageMessage := None; videoMessage := None |} group_chat.
Proof. repeat split; try reflexivity. vm_compute. lia. Qed.

Lemma reply_witness :
  sends (trace_of (handleMessage ascii_platform (answering (js " hello "))
                     (text_message group_chat (js "Karl hi") (Some sender))
                     (connected_store 7%N))) =
    [(7%N, group_chat,
      {| out_text := js "KARL AI ASSISTANCE: hello"; out_mentions := Some [Some sender] |})].
Proof.
  apply (proj2 (reply_names_bot_and_mentions_sender ascii_platform
                  (answering (js " hello "))
                  (text_message group_chat (js "Karl hi") (Some sender)) _ group_chat
                  (connected_store 7%N) group_karl_triggers) 7%N (js "hello") eq_refl eq_refl).
Defined.

(** A direct message that names the bot: one completion call, with the
    direct-message context, and one send, prefixed with the bot name. *)
Example weather_run :
  let r := handleMessage ascii_platform (answering (js "Sunny."))
             (text_message direct_chat (js "karl what's the weather") None)
             (connected_store 7%N) in
  completions (trace_of r) =
    [completion_request (js "karl what's the weather")
       (js "Direct message from Tendai.")]
  /\ sends (trace_of r) =
       [(7%N, direct_chat,
         {| out_text := js "KARL AI ASSISTANCE: Sunny."; out_mentions := None |})].
Proof. split; reflexivity. Qed.

(** In a group, "assistant" alone triggers a reply without a mention, and
    "karl" without "@" one with a mention. *)
Example group_mentions_run :
  sends (trace_of (handleMessage ascii_platform (answering (js "yes"))
                     (text_message group_chat (js "any assistant here") (Some sender))
                     (connected_store 7%N))) =
    [(7%N, group_chat, {| out_text := js "KARL AI ASSISTANCE: yes"; out_mentions := None |})]
  /\ sends (trace_of (handleMessage ascii_platform (answering (js "yes"))
                        (text_message group_chat (js "thanks karl") (Some sender))
                        (connected_store 7%N))) =
       [(7%N, group_chat,
         {| out_text := js "KARL AI ASSISTANCE: yes"; out_mentions := Some [Some sender] |})].
Proof. split; reflexivity. Qed.

Lemma reconnect_backoff_witness :
  (closes ascii_platform (answering []) (Some 428) 3 initial_store).2 = [5000; 10000; 15000]
  /\ (closes ascii_platform (answering []) (Some 428) 7 initial_store).2 =
       [5000; 10000; 15000; 20000; 25000].
Proof.
  assert (Hcode : Some 428 <> Some (loggedOut ascii_platform)) by discriminate.
  split.
  - apply (proj2 (proj2 (reconnect_backoff ascii_platform (answering []) (Some 428) Hcode))
             ∅ 3%nat).
  - apply (proj2 (proj2 (reconnect_backoff ascii_platform (answering []) (Some 428) Hcode))
             ∅ 7%nat).
Defined.

Lemma logged_out_close_witness :
  pairings (trace_of (on_connection_update ascii_platform (answering [])
                        (close_event (Some 401)) (connected_store 7%N))) =
    [(7%N, js "263777965084")].
Proof.
  apply (proj1 (logged_out_close ascii_platform (answering []) (close_event (Some 401))
                  (connected_store 7%N) eq_refl eq_refl) 7%N eq_refl).
Defined.

(** On a logged-out close the [index.js] listener prints its line and
    does nothing else: no pairing code is asked for. *)
Lemma script_logged_out_asks_no_pairing :
  trace_of (IndexJs.on_connection_update ascii_platform (close_event (Some 401))
              (connected_store 7%N)) = [Console (LogScriptClosed (Some 401) false)]
  /\ pairings (trace_of (IndexJs.on_connection_update ascii_platform
                           (close_event (Some 401)) (connected_store 7%N))) = [].
Proof. split; reflexivity. Qed.

Lemma send_route_witness :
  trace_of (post_send (answering []) (js "+263 77-123 4567") (Some (js "hi"))
              (connected_store 7%N)) =
    [TransportSend 7%N (js "263771234567@s.whatsapp.net")
       {| out_text := js "hi"; out_mentions := None |}].
Proof.
  apply (proj1 (proj1 (proj2 (send_route (answering []) (js "+263 77-123 4567")
                                (Some (js "hi")) (connected_store 7%N)))
                  (js "hi") eq_refl ltac:(discriminate)) 7%N eq_refl eq_refl).
Defined.

(** Before the connection is open the route sends nothing: a request
    with a message and a number gets 500 "Bot not connected". *)
Lemma send_route_not_connected :
  post_send (answering []) (js "263771234567") (Some (js "hi")) initial_store =
    (Returned (status_json 500 (BodyFailure (Some (js "Bot not connected")))),
     initial_store, [])
  /\ sends (trace_of (post_send (answering []) (js "263771234567") (Some (js "hi"))
                        initial_store)) = [].
Proof. split; reflexivity. Qed.

(** A present but empty message is refused like a missing one. *)
Example send_route_empty_message :
  post_send (answering []) (js "263771234567") (Some []) (connected_store 7%N) =
    (Returned (status_json 400 (BodyError (js "Message required"))),
     connected_store 7%N, []).
Proof. reflexivity. Qed.

Lemma pairing_code_witness :
  pairings (trace_of (requestPairingCode ascii_platform (answering [])
                        (connected_store 7%N))) = [(7%N, js "263777965084")]
  /\ files (store_of (requestPairingCode ascii_platform (answering [])
                        (connected_store 7%N))) !! pairing_log =
       Some {| pr_timestamp := js "2025-01-01T00:00:00.000Z";
               pr_phone := js "+263777965084"; pr_code := js "ABCD1234";
               pr_status := js "generated" |}.
Proof.
  destruct (proj2 (pairing_code_request ascii_platform (answering []) (connected_store 7%N))
              7%N eq_refl) as (Hp & _ & _ & Hf).
  split; [exact Hp|]. exact (proj2 (Hf (js "ABCD1234") eq_refl eq_refl)).
Defined.

(** With a phone number written with spaces, the bot asks with digits
    only and the [index.js] helper with the spaces left in. *)
Example spaced_phone_run :
  let P := {| toLowerCase := asciiLowerCase; loggedOut := 401;
              env_PHONE_NUMBER := Some (js "+263 777 965 084") |} in
  pairings (trace_of (requestPairingCode P (answering []) (connected_store 7%N))) =
    [(7%N, js "263777965084")]
  /\ pairings (trace_of (IndexJs.generatePairing P (answering []) 7%N initial_store)) =
       [(7%N, js "263 777 965 084")].
Proof. split; reflexivity. Qed.

Lemma reconnect_counter_witness :
  0 <= reconnectAttempts
         (bot (run_op ascii_platform (answering []) (OpConnectionUpdate (close_event (Some 428)))
                 (run_op ascii_platform (answering []) OpStartApplication initial_store).1).1)
    <= 5.
Proof.
  pose proof (proj1 (reconnect_counter_invariant ascii_platform) _
                (reach_step ascii_platform _ (answering [])
                   (OpConnectionUpdate (close_event (Some 428)))
                   (reach_step ascii_platform _ (answering []) OpStartApplication
                      (reach_start ascii_platform ∅)))) as [Hb Hmax].
  rewrite Hmax in Hb. exact Hb.
Defined.

(** ** Runs for the further properties *)

Lemma blank_answer_witness :
  result_of (getAIResponse (answering (js "  ")) (js "karl hi") (js "ctx") initial_store)
  = Returned reply_empty.
Proof.
  apply (blank_answer_is_replaced (answering (js "  ")) (js "karl hi") (js "ctx")
           initial_store (Some (js "  ")) eq_refl).
  repeat constructor.
Defined.

Lemma failure_replies_witness :
  result_of (getAIResponse (failing_completion (js "401 invalid api key"))
               (js "karl hi") (js "ctx") initial_store) = Returned reply_checkup
  /\ result_of (getAIResponse (failing_completion (js "rate limit: invalid window"))
                  (js "karl hi") (js "ctx") initial_store) = Returned reply_busy
  /\ result_of (getAIResponse (failing_completion (js "socket hang up"))
                  (js "karl hi") (js "ctx") initial_store) = Returned reply_issues.
Proof.
  split; [|split].
  - apply (proj1 (proj2 (failure_replies (failing_completion (js "401 invalid api key"))
                           (js "karl hi") (js "ctx") initial_store _ _ eq_refl eq_refl))).
    + apply includes_false. reflexivity.
    + exists (js "401 "), (js " api key"). reflexivity.
  - apply (proj1 (failure_replies (failing_completion (js "rate limit: invalid window"))
                    (js "karl hi") (js "ctx") initial_store _ _ eq_refl eq_refl)).
    exists [], (js ": invalid window"). reflexivity.
  - apply (proj2 (proj2 (failure_replies (failing_completion (js "socket hang up"))
                           (js "karl hi") (js "ctx") initial_store _ _ eq_refl eq_refl)));
      apply includes_false; reflexivity.
Defined.

Lemma messageless_failure_witness :
  sends (trace_of (handleMessage ascii_platform
                     (set_completion (Failed (Thrown None)) (answering []))
                     (text_message direct_chat (js "karl hi") None)
                     (connected_store 7%N))) = [].
Proof.
  apply (messageless_failure_is_dropped ascii_platform
           (set_completion (Failed (Thrown None)) (answering []))
           (text_message direct_chat (js "karl hi") None) _ direct_chat
           (connected_store 7%N) (Thrown None) karl_hi_triggers eq_refl eq_refl).
Defined.

Lemma no_socket_witness :
  sends (trace_of (handleMessage ascii_platform (answering (js "hello"))
                     (text_message direct_chat (js "karl hi") None) initial_store)) = [].
Proof.
  apply (no_socket_no_send ascii_platform (answering (js "hello"))
           (text_message direct_chat (js "karl hi") None) _ direct_chat
           initial_store karl_hi_triggers eq_refl).
Defined.

Lemma ai_keyword_witness :
  exists a c b, lowerText ascii_platform (js "hello AI bot") = a ++ js "ai " ++ c :: b.
Proof.
  apply (ai_keyword_needs_more_text ascii_platform (js "hello AI bot")).
  - reflexivity.
  - apply includes_false. reflexivity.
  - apply includes_false. reflexivity.
Defined.

(** A text that ends in the keyword does not trigger. *)
Example ai_at_the_end_run :
  triggered (lowerText ascii_platform (js "I like AI")) = false
  /\ triggered (lowerText ascii_platform (js "I like AI   ")) = false
  /\ triggered (lowerText ascii_platform (js "I like AI a lot")) = true.
Proof. repeat split; reflexivity. Qed.

Lemma send_follows_connection_witness :
  post_send (answering []) (js "263771234567") (Some (js "hi"))
    (store_of (on_connection_update ascii_platform (answering [])
                 (close_event (Some 428)) (connected_store 7%N))) =
    (Returned (status_json 500 (BodyFailure (Some (js "Bot not connected")))),
     store_of (on_connection_update ascii_platform (answering [])
                 (close_event (Some 428)) (connected_store 7%N)), []).
Proof.
  apply (proj1 (send_follows_connection ascii_platform (answering [])
                  (close_event (Some 428)) (connected_store 7%N) (answering [])
                  (js "263771234567") 104%N (js "i")) eq_refl).
Defined.

Lemma backoff_restart_witness :
  timers (trace_of (on_connection_update ascii_platform (answering [])
                      (close_event (Some 428))
                      (store_of (on_connection_update ascii_platform (answering [])
                                   {| connection := Some ConnOpen; statusCode := None;
                                      qr := None |}
                                   (retrying_store 7%N))))) =
    [(RetryInitialize, 5000)].
Proof.
  apply (backoff_restarts_after_open ascii_platform (answering [])
           {| connection := Some ConnOpen; statusCode := None; qr := None |}
           (close_event (Some 428)) (answering []) (retrying_store 7%N)
           eq_refl eq_refl).
  - discriminate.
  - reflexivity.
Defined.

Lemma latest_socket_witness :
  trace_of (post_send (answering []) (js "263771234567") (Some (js "hi"))
              (store_of (initialize (answering []) (connected_store 7%N)))) =
    [TransportSend 1%N (js "263771234567@s.whatsapp.net")
       {| out_text := js "hi"; out_mentions := None |}].
Proof.
  apply (proj2 (sends_follow_latest_socket (answering []) (connected_store 7%N) 1%N
                  (answering []) (js "263771234567") 104%N (js "i") eq_refl eq_refl)).
Defined.

Lemma startApplication_witness :
  timers (trace_of (startApplication (answering []) initial_store)) = [(AutoPair, 10000)]
  /\ store_of (startApplication
                 (set_socket (SocketFailed (Thrown (Some (js "ENOTFOUND")))) (answering []))
                 initial_store) = initial_store.
Proof.
  split.
  - apply (proj1 (proj1 (proj2 (startApplication_outcome ascii_platform (answering [])
                                  initial_store)) 1%N eq_refl)).
  - apply (proj2 (proj2 (proj2 (startApplication_outcome ascii_platform
                                  (set_socket (SocketFailed (Thrown (Some (js "ENOTFOUND"))))
                                     (answering []))
                                  initial_store))
                    (Thrown (Some (js "ENOTFOUND"))) eq_refl)).
Defined.

Lemma failed_pairing_witness :
  requestPairingCode ascii_platform
    (set_pairing (PairingFailed (Thrown (Some (js "already paired")))) (answering []))
    (connected_store 7%N) =
    (Returned tt, connected_store 7%N,
     [PairingRequest 7%N (js "263777965084");
      Console (LogPairingError (Some (js "already paired")));
      Console LogAlreadyPaired]).
Proof.
  apply (proj1 (proj2 (failed_pairing_changes_nothing ascii_platform
                         (set_pairing (PairingFailed (Thrown (Some (js "already paired"))))
                            (answering []))
                         (connected_store 7%N) 7%N (Thrown (Some (js "already paired")))
                         eq_refl eq_refl))
           (js "already paired") eq_refl).
Defined.

Lemma pair_route_witness :
  result_of (post_pair ascii_platform
               (set_pairing (PairingFailed (Thrown (Some (js "timed out")))) (answering []))
               paired_before) =
    Returned (json (BodyPaired (js "+263777965084") (js "OLDC0DE1"))).
Proof.
  apply (proj1 (pair_route ascii_platform
                  (set_pairing (PairingFailed (Thrown (Some (js "timed out"))))
                     (answering []))
                  paired_before)
           1%N (Thrown (Some (js "timed out"))) (js "timed out") eq_refl eq_refl eq_refl).
Defined.

Lemma open_pairing_witness :
  pairings (trace_of (on_connection_update ascii_platform
                        (set_registered false (answering []))
                        {| connection := Some ConnOpen; statusCode := None; qr := None |}
                        (retrying_store 7%N))) = [(7%N, js "263777965084")].
Proof.
  apply (proj1 (open_pairs_when_unregistered ascii_platform
                  (set_registered false (answering []))
                  {| connection := Some ConnOpen; statusCode := None; qr := None |}
                  (retrying_store 7%N) 7%N eq_refl eq_refl)).
Defined.

Lemma logged_out_record_witness :
  files (store_of (on_connection_update ascii_platform (answering [])
                     (close_event (Some 401)) (connected_store 7%N))) !! pairing_log =
    Some (pairing_record ascii_platform (answering []) (js "ABCD1234")).
Proof.
  apply (proj2 (logged_out_close_stores_record ascii_platform (answering [])
                  (close_event (Some 401)) (connected_store 7%N) 7%N (js "ABCD1234")
                  eq_refl eq_refl eq_refl eq_refl eq_refl)).
Defined.

Lemma retry_delays_witness :
  (length (closes ascii_platform (answering []) (Some 428%Z) 9
             (run_op ascii_platform (answering []) OpStartApplication initial_store).1).2
   <= 5)%nat.
Proof.
  apply (proj1 (retry_delays_bounded ascii_platform (answering []) (Some 428) 9 _
                  (reach_step ascii_platform _ (answering []) OpStartApplication
                     (reach_start ascii_platform ∅))
                  ltac:(discriminate))).
Defined.

Lemma same_digits_witness :
  post_send (answering []) (js "+263 77-123 4567") (Some (js "hi")) (connected_store 7%N)
  = post_send (answering []) (js "263771234567") (Some (js "hi")) (connected_store 7%N).
Proof.
  apply (proj1 (send_target_reads_digits_only (answering []) (js "+263 77-123 4567")
                  (js "263771234567")) eq_refl).
Defined.

Lemma caption_witness :
  quiet (trace_of (IndexJs.on_messages_upsert ascii_platform (answering (js "hello")) 7%N
                     [caption_message direct_chat (js "karl look at this")]
                     (connected_store 7%N))).
Proof.
  apply (script_ignores_captions ascii_platform (answering (js "hello")) 7%N
           (caption_message direct_chat (js "karl look at this")) _ []
           (connected_store 7%N) ascii_short_stays_nameless eq_refl eq_refl eq_refl).
Defined.

(** The class script answers the same caption. *)
Example caption_answered_run :
  sends (trace_of (handleMessage ascii_platform (answering (js "hello"))
                     (caption_message direct_chat (js "karl look at this"))
                     (connected_store 7%N))) =
    [(7%N, direct_chat, {| out_text := js "KARL AI ASSISTANCE: hello"; out_mentions := None |})].
Proof. reflexivity. Qed.

Lemma plus_phone_witness :
  pairings (trace_of (requestPairingCode ascii_platform (answering [])
                        (connected_store 7%N))) = [(7%N, js "263777965084")]
  /\ pairings (trace_of (IndexJs.generatePairing ascii_platform (answering []) 7%N
                           initial_store)) = [(7%N, js "263777965084")].
Proof.
  apply (plus_phone_agree ascii_platform (answering []) (js "263777965084") 7%N
           (connected_store 7%N) initial_store eq_refl).
  - repeat constructor.
  - reflexivity.
Defined.

Lemma socket_kept_witness :
  is_Some (sock (bot (run_op ascii_platform (answering [])
                        (OpConnectionUpdate (close_event (Some 401)))
                        (connected_store 7%N)).1)).
Proof.
  apply (socket_never_cleared ascii_platform (answering [])
           (OpConnectionUpdate (close_event (Some 401))) (connected_store 7%N)).
  eexists. reflexivity.
Defined.

Lemma name_in_any_case_witness :
  triggered (lowerText ascii_platform (js "ask " ++ js "KaRl" ++ js "!")) = true
  /\ IndexJs.trigger ascii_platform (js "ask " ++ js "KaRl" ++ js "!") = true.
Proof.
  apply (name_in_any_case ascii_platform (js "ask ") (js "KaRl") (js "!")
           asciiLowerCase_lowers eq_refl).
Defined.
